(** * Personal-Site: the interaction layer of [js/main.js]

    A shallow embedding of the script's five controllers (navigation menu,
    smooth scroll, active-link marker, theme toggle, lightbox) over an
    explicit model of the part of the browser they read and write: a store
    of elements, the document root, the focused element, [localStorage],
    the registered event listeners and the cancellation flag of the event
    being dispatched. JavaScript exceptions are kept: a property access on
    [null] or [undefined] completes abruptly with a [TypeError] and leaves
    the mutations made so far in place. *)

From stdpp Require Import base strings gmap list.

(** ** JavaScript strings *)

Module JsString.

(** [String.prototype.endsWith(searchString)] with no end position: the
    empty search string always matches, a search string longer than the
    receiver never does, otherwise the last [searchLength] code units are
    compared. *)
Definition endsWith (s searchStr : string) : bool :=
  let len := String.length s in
  let searchLength := String.length searchStr in
  if Nat.eqb searchLength 0 then true
  else if Nat.ltb len searchLength then false
  else String.eqb (String.substring (len - searchLength) searchLength s) searchStr.

(** [ToString] applied to the result of [getAttribute]: [null] becomes the
    four-character string. *)
Definition ToString (v : option string) : string :=
  match v with
  | None => "null"
  | Some s => s
  end.

(** [v === lit] for a value that is a string or [null]. *)
Definition strictEq (v : option string) (lit : string) : bool :=
  match v with
  | None => false
  | Some s => String.eqb s lit
  end.

(** [!v] for a value that is a string or [null]: both [null] and the empty
    string are falsy. *)
Definition falsy (v : option string) : bool :=
  match v with
  | None => true
  | Some s => String.eqb s ""
  end.

End JsString.

(** ** Elements *)

(** Elements are named by the handle a selector query returns. *)
Abbreviation NodeId := nat.

(** What the script reads and writes on an element: its class list (a
    [DOMTokenList]: ordered, without duplicates), its content attributes and
    the [src] and [alt] properties of an image. *)
Record Element := mkElement {
  classList : list string;
  attributes : gmap string string;
  src : string;
  alt : string
}.

Module El.

Definition empty : Element := mkElement [] ∅ "" "".

(** [classList.contains(c)] *)
Definition contains (c : string) (e : Element) : bool :=
  bool_decide (c ∈ classList e).

(** [classList.add(c)]: appended unless already present. *)
Definition add (c : string) (e : Element) : Element :=
  mkElement (if contains c e then classList e else classList e ++ [c])
            (attributes e) (src e) (alt e).

(** [classList.remove(c)] *)
Definition remove (c : string) (e : Element) : Element :=
  mkElement (filter (λ x, x ≠ c) (classList e)) (attributes e) (src e) (alt e).

Definition getAttribute (k : string) (e : Element) : option string :=
  attributes e !! k.

Definition setAttribute (k v : string) (e : Element) : Element :=
  mkElement (classList e) (<[k := v]> (attributes e)) (src e) (alt e).

Definition removeAttribute (k : string) (e : Element) : Element :=
  mkElement (classList e) (delete k (attributes e)) (src e) (alt e).

Definition set_src (v : string) (e : Element) : Element :=
  mkElement (classList e) (attributes e) v (alt e).

Definition set_alt (v : string) (e : Element) : Element :=
  mkElement (classList e) (attributes e) (src e) v.

End El.

(** ** Events and listeners *)

Inductive EventTarget :=
  | TDocument
  | TNode (n : NodeId).

(** The fields of a DOM event the handlers read. A mouse event carries no
    meaningful [key]. *)
Record Event := mkEvent {
  key : string;
  shiftKey : bool;
  target : NodeId
}.

(** The script's listener functions. The anonymous ones are named after the
    place they are registered; each carries the variables its closure
    captured inside the [init*] function that created it. A variable that a
    guard has already narrowed to non-null is a [NodeId], one that is still
    nullable an [option]. *)
Inductive Handler :=
  | H_toggleMenu
  | H_navDocumentClick
  | H_navDocumentKeydown
  | H_handleMenuKeydown
  | H_anchorClick (this : NodeId)
  | H_themeToggleClick (themeToggle : NodeId)
  | H_galleryClick (lightbox : NodeId) (lightboxImg lightboxClose : option NodeId) (this : NodeId)
  | H_galleryKeydown (lightbox : NodeId) (lightboxImg lightboxClose : option NodeId) (this : NodeId)
  | H_closeLightbox (lightbox : NodeId)
  | H_lightboxClick (lightbox : NodeId)
  | H_lightboxDocumentKeydown (lightbox : NodeId).

Record Listener := mkListener {
  l_target : EventTarget;
  l_type : string;
  l_handler : Handler
}.

(** ** The browser state and the effect monad *)

Record World := mkWorld {
  elems : gmap nat Element;           (* the elements, by handle *)
  documentElement : Element;          (* the page root *)
  bodyOverflow : string;              (* document.body.style.overflow *)
  activeElement : option NodeId;      (* document.activeElement, None for null *)
  localStorage : gmap string string;
  listeners : list Listener;          (* in registration order *)
  scrolledIntoView : list NodeId;     (* targets of scrollIntoView, oldest first *)
  defaultPrevented : bool             (* of the event being dispatched *)
}.

Inductive JsError := TypeError | SyntaxError.

(** A normal completion with a value, or an abrupt one with the exception
    thrown; both carry the state reached. *)
Inductive Completion (A : Type) :=
  | Normal (a : A) (w : World)
  | Throw (e : JsError) (w : World).
Arguments Normal {A} a w.
Arguments Throw {A} e w.

Definition JS (A : Type) : Type := World → Completion A.

Definition ret {A} (a : A) : JS A := λ w, Normal a w.

(** Sequencing: an abrupt completion of [m] skips [f]. *)
Definition bind {A B} (m : JS A) (f : A → JS B) : JS B := λ w,
  match m w with
  | Normal a w' => f a w'
  | Throw e w' => Throw e w'
  end.

Declare Scope js_scope.
Delimit Scope js_scope with js.
Notation "'let*' x ':=' m 'in' k" := (bind m (λ x, k))
  (at level 10, x name, m at level 100, k at level 200) : js_scope.
Notation "m ;; k" := (bind m (λ _, k))
  (at level 100, k at level 200, right associativity) : js_scope.
Local Open Scope js_scope.

Definition final {A} (c : Completion A) : World :=
  match c with
  | Normal _ w => w
  | Throw _ w => w
  end.

Definition thrown {A} (c : Completion A) : option JsError :=
  match c with
  | Normal _ _ => None
  | Throw e _ => Some e
  end.

Module Dom.

Definition get {A} (f : World → A) : JS A := λ w, Normal (f w) w.
Definition modify (f : World → World) : JS unit := λ w, Normal () (f w).
Definition throw {A} (e : JsError) : JS A := λ w, Throw e w.

(** Reading a property of a value that may be [null] or [undefined]. *)
Definition deref {A} (o : option A) : JS A :=
  match o with
  | Some a => ret a
  | None => throw TypeError
  end.

Definition getElement (n : NodeId) (w : World) : Element :=
  default El.empty (elems w !! n).

Definition updElement (n : NodeId) (f : Element → Element) (w : World) : World :=
  mkWorld (<[n := f (getElement n w)]> (elems w)) (documentElement w) (bodyOverflow w)
          (activeElement w) (localStorage w) (listeners w) (scrolledIntoView w)
          (defaultPrevented w).

Definition updRoot (f : Element → Element) (w : World) : World :=
  mkWorld (elems w) (f (documentElement w)) (bodyOverflow w)
          (activeElement w) (localStorage w) (listeners w) (scrolledIntoView w)
          (defaultPrevented w).

Definition classList_add (n : NodeId) (c : string) : JS unit :=
  modify (updElement n (El.add c)).
Definition classList_remove (n : NodeId) (c : string) : JS unit :=
  modify (updElement n (El.remove c)).
Definition classList_contains (n : NodeId) (c : string) : JS bool :=
  get (λ w, El.contains c (getElement n w)).

Definition getAttribute (n : NodeId) (k : string) : JS (option string) :=
  get (λ w, El.getAttribute k (getElement n w)).
Definition setAttribute (n : NodeId) (k v : string) : JS unit :=
  modify (updElement n (El.setAttribute k v)).
Definition removeAttribute (n : NodeId) (k : string) : JS unit :=
  modify (updElement n (El.removeAttribute k)).

Definition get_src (n : NodeId) : JS string := get (λ w, src (getElement n w)).
Definition get_alt (n : NodeId) : JS string := get (λ w, alt (getElement n w)).
Definition set_src (n : NodeId) (v : string) : JS unit := modify (updElement n (El.set_src v)).
Definition set_alt (n : NodeId) (v : string) : JS unit := modify (updElement n (El.set_alt v)).

Definition root_getAttribute (k : string) : JS (option string) :=
  get (λ w, El.getAttribute k (documentElement w)).
Definition root_setAttribute (k v : string) : JS unit :=
  modify (updRoot (El.setAttribute k v)).

Definition set_bodyOverflow (v : string) : JS unit :=
  modify (λ w, mkWorld (elems w) (documentElement w) v
                       (activeElement w) (localStorage w) (listeners w)
                       (scrolledIntoView w) (defaultPrevented w)).

Definition focus (n : NodeId) : JS unit :=
  modify (λ w, mkWorld (elems w) (documentElement w) (bodyOverflow w)
                       (Some n) (localStorage w) (listeners w)
                       (scrolledIntoView w) (defaultPrevented w)).

Definition getItem (k : string) : JS (option string) :=
  get (λ w, localStorage w !! k).
Definition setItem (k v : string) : JS unit :=
  modify (λ w, mkWorld (elems w) (documentElement w) (bodyOverflow w)
                       (activeElement w) (<[k := v]> (localStorage w)) (listeners w)
                       (scrolledIntoView w) (defaultPrevented w)).

Definition addEventListener (t : EventTarget) (type : string) (h : Handler) : JS unit :=
  modify (λ w, mkWorld (elems w) (documentElement w) (bodyOverflow w)
                       (activeElement w) (localStorage w)
                       (listeners w ++ [mkListener t type h])
                       (scrolledIntoView w) (defaultPrevented w)).

Definition scrollIntoView (n : NodeId) : JS unit :=
  modify (λ w, mkWorld (elems w) (documentElement w) (bodyOverflow w)
                       (activeElement w) (localStorage w) (listeners w)
                       (scrolledIntoView w ++ [n]) (defaultPrevented w)).

Definition preventDefault : JS unit :=
  modify (λ w, mkWorld (elems w) (documentElement w) (bodyOverflow w)
                       (activeElement w) (localStorage w) (listeners w)
                       (scrolledIntoView w) true).

(** [a === b] where [a] is [document.activeElement] (an element or [null])
    and [b] an entry of a [NodeList] (an element or [undefined]): [null]
    and [undefined] are not strictly equal. *)
Definition sameNode (a b : option NodeId) : bool :=
  match a, b with
  | Some x, Some y => Nat.eqb x y
  | _, _ => false
  end.

(** [list.forEach(f)] *)
Fixpoint forEach {A} (f : A → JS unit) (l : list A) : JS unit :=
  match l with
  | [] => ret ()
  | x :: l' => f x;; forEach f l'
  end.

End Dom.

(** ** The host page *)

(** The outcome of [document.querySelector(sel)]: an invalid selector
    throws, a valid one yields the first match or [null]. *)
Inductive QueryResult :=
  | InvalidSelector
  | Matched (r : option NodeId).

(** What the host document answers to the queries the script makes. The
    script never inserts or removes elements and never changes the classes
    and ids its own selectors mention, so these answers are fixed for the
    life of the page; only the target lookup of the smooth scroll, whose
    selector comes from markup, is evaluated against the current state. *)
Record Page := mkPage {
  navToggle : option NodeId;       (* document.querySelector('.nav-toggle') *)
  navMenu : option NodeId;         (* document.querySelector('.nav-menu') *)
  menuLinks : list NodeId;         (* navMenu.querySelectorAll('.nav-link') *)
  anchorLinks : list NodeId;       (* document.querySelectorAll('a[href^="#"]') *)
  navLinks : list NodeId;          (* document.querySelectorAll('.nav-link') *)
  themeToggle : option NodeId;     (* document.querySelector('.theme-toggle') *)
  lightbox : option NodeId;        (* document.getElementById('lightbox') *)
  lightboxImg : option NodeId;     (* document.getElementById('lightbox-img') *)
  lightboxClose : option NodeId;   (* document.querySelector('.lightbox-close') *)
  galleryImages : list NodeId;     (* document.querySelectorAll('.gallery-item img') *)
  contains : NodeId → NodeId → bool;            (* a.contains(b) *)
  querySelector : World → string → QueryResult; (* document.querySelector(sel) *)
  pathname : string;               (* window.location.pathname *)
  systemPrefersDark : bool         (* matchMedia('(prefers-color-scheme: dark)').matches *)
}.

(** ** Navigation controller *)

Section Navigation.

Variable page : Page.

Definition closeMenu : JS unit :=
  let* m := Dom.deref (navMenu page) in
  Dom.classList_remove m "active";;
  let* t := Dom.deref (navToggle page) in
  Dom.setAttribute t "aria-expanded" "false".

Definition openMenu : JS unit :=
  let* m := Dom.deref (navMenu page) in
  Dom.classList_add m "active";;
  let* t := Dom.deref (navToggle page) in
  Dom.setAttribute t "aria-expanded" "true";;
  let firstLink := head (menuLinks page) in
  match firstLink with
  | Some l => Dom.focus l
  | None => ret ()
  end.

Definition toggleMenu : JS unit :=
  let* m := Dom.deref (navMenu page) in
  let* isOpen := Dom.classList_contains m "active" in
  if isOpen then closeMenu else openMenu.

(** [menuLinks[menuLinks.length - 1]]; on an empty list the index is -1
    and the entry [undefined], which the truncated subtraction gives as
    well ([[] !! 0]). *)
Definition lastOf (l : list NodeId) : option NodeId := l !! (length l - 1).

Definition handleMenuKeydown (e : Event) : JS unit :=
  let* _ := Dom.deref (navMenu page) in
  let firstLink := head (menuLinks page) in
  let lastLink := lastOf (menuLinks page) in
  if String.eqb (key e) "Tab" then
    let* active := Dom.get activeElement in
    if shiftKey e && Dom.sameNode active firstLink then
      Dom.preventDefault;;
      let* l := Dom.deref lastLink in
      Dom.focus l
    else if negb (shiftKey e) && Dom.sameNode active lastLink then
      Dom.preventDefault;;
      let* f := Dom.deref firstLink in
      Dom.focus f
    else ret ()
  else ret ().

(** The document-level click listener of [initNavigation]. *)
Definition navDocumentClick (e : Event) : JS unit :=
  let* t := Dom.deref (navToggle page) in
  if negb (contains page t (target e)) then
    let* m := Dom.deref (navMenu page) in
    if negb (contains page m (target e)) then closeMenu else ret ()
  else ret ().

(** The document-level keydown listener of [initNavigation]. *)
Definition navDocumentKeydown (e : Event) : JS unit :=
  if String.eqb (key e) "Escape" then
    let* m := Dom.deref (navMenu page) in
    let* isOpen := Dom.classList_contains m "active" in
    if isOpen then
      closeMenu;;
      let* t := Dom.deref (navToggle page) in
      Dom.focus t
    else ret ()
  else ret ().

Definition initNavigation : JS unit :=
  match navToggle page, navMenu page with
  | Some t, Some m =>
      Dom.addEventListener (TNode t) "click" H_toggleMenu;;
      Dom.addEventListener TDocument "click" H_navDocumentClick;;
      Dom.addEventListener TDocument "keydown" H_navDocumentKeydown;;
      Dom.addEventListener (TNode m) "keydown" H_handleMenuKeydown
  | _, _ => ret ()
  end.

End Navigation.

(** ** Smooth-scroll controller *)

Section SmoothScroll.

Variable page : Page.

(** The click listener bound to each anchor; [this] is the anchor. *)
Definition anchorClick (this : NodeId) (e : Event) : JS unit :=
  let* targetId := Dom.getAttribute this "href" in
  if JsString.strictEq targetId "#" then ret ()
  else
    let* w := Dom.get (λ w : World, w) in
    match querySelector page w (JsString.ToString targetId) with
    | InvalidSelector => Dom.throw SyntaxError
    | Matched None => ret ()
    | Matched (Some targetElement) =>
        Dom.preventDefault;;
        Dom.scrollIntoView targetElement;;
        Dom.setAttribute targetElement "tabindex" "-1";;
        Dom.focus targetElement
    end.

Definition initSmoothScroll : JS unit :=
  Dom.forEach (λ link, Dom.addEventListener (TNode link) "click" (H_anchorClick link))
              (anchorLinks page).

End SmoothScroll.

(** ** Active-link marker *)

Section ActiveNav.

Variable page : Page.

Definition isActive (currentPath : string) (href : option string) : bool :=
  JsString.endsWith currentPath (JsString.ToString href)
  || (String.eqb currentPath "/" && JsString.strictEq href "index.html")
  || (JsString.endsWith currentPath "/" && JsString.strictEq href "index.html").

Definition markLink (currentPath : string) (link : NodeId) : JS unit :=
  let* href := Dom.getAttribute link "href" in
  if isActive currentPath href then
    Dom.classList_add link "active";;
    Dom.setAttribute link "aria-current" "page"
  else
    Dom.classList_remove link "active";;
    Dom.removeAttribute link "aria-current".

Definition updateActiveNav : JS unit :=
  let currentPath := pathname page in
  Dom.forEach (markLink currentPath) (navLinks page).

End ActiveNav.

(** ** Theme controller *)

Section DarkMode.

Variable page : Page.

(** The click listener of the theme toggle. *)
Definition themeToggleClick (themeToggle : NodeId) : JS unit :=
  let* currentTheme := Dom.root_getAttribute "data-theme" in
  let newTheme := if JsString.strictEq currentTheme "dark" then "light" else "dark" in
  Dom.root_setAttribute "data-theme" newTheme;;
  Dom.setItem "theme" newTheme;;
  let label := if String.eqb newTheme "dark"
               then "Switch to light mode" else "Switch to dark mode" in
  Dom.setAttribute themeToggle "aria-label" label.

Definition initDarkMode : JS unit :=
  match themeToggle page with
  | None => ret ()
  | Some themeToggle =>
      let* savedTheme := Dom.getItem "theme" in
      let systemPrefersDark := systemPrefersDark page in
      (if JsString.strictEq savedTheme "dark"
          || (JsString.falsy savedTheme && systemPrefersDark)
       then Dom.root_setAttribute "data-theme" "dark"
       else ret ());;
      Dom.addEventListener (TNode themeToggle) "click" (H_themeToggleClick themeToggle)
  end.

End DarkMode.

(** ** Lightbox controller *)

Section Lightbox.

Variable page : Page.

(** The body shared by the click and Enter-key listeners of a gallery
    image; [this] is the image. *)
Definition openLightbox (lightbox : NodeId) (lightboxImg lightboxClose : option NodeId)
    (this : NodeId) : JS unit :=
  let* s := Dom.get_src this in
  let* i := Dom.deref lightboxImg in
  Dom.set_src i s;;
  let* a := Dom.get_alt this in
  let* i := Dom.deref lightboxImg in
  Dom.set_alt i a;;
  Dom.classList_add lightbox "active";;
  Dom.set_bodyOverflow "hidden";;
  let* c := Dom.deref lightboxClose in
  Dom.focus c.

Definition galleryClick (lightbox : NodeId) (lightboxImg lightboxClose : option NodeId)
    (this : NodeId) : JS unit :=
  openLightbox lightbox lightboxImg lightboxClose this.

Definition galleryKeydown (lightbox : NodeId) (lightboxImg lightboxClose : option NodeId)
    (this : NodeId) (e : Event) : JS unit :=
  if String.eqb (key e) "Enter"
  then openLightbox lightbox lightboxImg lightboxClose this
  else ret ().

Definition closeLightbox (lightbox : NodeId) : JS unit :=
  Dom.classList_remove lightbox "active";;
  Dom.set_bodyOverflow "".

(** The click listener on the overlay itself. *)
Definition lightboxClick (lightbox : NodeId) (e : Event) : JS unit :=
  if Nat.eqb (target e) lightbox then closeLightbox lightbox else ret ().

(** The document-level keydown listener of [initLightbox]. *)
Definition lightboxDocumentKeydown (lightbox : NodeId) (e : Event) : JS unit :=
  if String.eqb (key e) "Escape" then
    let* isOpen := Dom.classList_contains lightbox "active" in
    if isOpen then closeLightbox lightbox else ret ()
  else ret ().

Definition initLightbox : JS unit :=
  let lightboxImg := lightboxImg page in
  let lightboxClose := lightboxClose page in
  let galleryImages := galleryImages page in
  match lightbox page with
  | None => ret ()
  | Some lightbox =>
      if Nat.eqb (length galleryImages) 0 then ret ()
      else
        Dom.forEach (λ img,
            Dom.addEventListener (TNode img) "click"
              (H_galleryClick lightbox lightboxImg lightboxClose img);;
            Dom.addEventListener (TNode img) "keydown"
              (H_galleryKeydown lightbox lightboxImg lightboxClose img))
          galleryImages;;
        let* c := Dom.deref lightboxClose in
        Dom.addEventListener (TNode c) "click" (H_closeLightbox lightbox);;
        Dom.addEventListener (TNode lightbox) "click" (H_lightboxClick lightbox);;
        Dom.addEventListener TDocument "keydown" (H_lightboxDocumentKeydown lightbox)
  end.

End Lightbox.

(** ** The whole script *)

Definition init (page : Page) : JS unit :=
  initNavigation page;;
  initSmoothScroll page;;
  updateActiveNav page;;
  initDarkMode page;;
  initLightbox page.

(** Running a registered listener on an event. *)
Definition handle (page : Page) (h : Handler) (e : Event) : JS unit :=
  match h with
  | H_toggleMenu => toggleMenu page
  | H_navDocumentClick => navDocumentClick page e
  | H_navDocumentKeydown => navDocumentKeydown page e
  | H_handleMenuKeydown => handleMenuKeydown page e
  | H_anchorClick this => anchorClick page this e
  | H_themeToggleClick t => themeToggleClick t
  | H_galleryClick lb im cl this => galleryClick lb im cl this
  | H_galleryKeydown lb im cl this => galleryKeydown lb im cl this e
  | H_closeLightbox lb => closeLightbox lb
  | H_lightboxClick lb => lightboxClick lb e
  | H_lightboxDocumentKeydown lb => lightboxDocumentKeydown lb e
  end.

(** * What the properties observe *)

(** ** Navigation: the expanded-state attribute *)

Section NavigationState.

Variable page : Page.
Variables t m : NodeId.

(** The menu carries the open marker class. *)
Definition menuOpen (w : World) : bool := El.contains "active" (Dom.getElement m w).

(** The trigger's [aria-expanded] attribute. *)
Definition ariaExpanded (w : World) : option string :=
  El.getAttribute "aria-expanded" (Dom.getElement t w).

(** The attribute is ['true'] exactly when the menu is open and ['false']
    exactly when it is not. *)
Definition expandedInSync (w : World) : Prop :=
  (ariaExpanded w = Some "true" ↔ menuOpen w = true)
  ∧ (ariaExpanded w = Some "false" ↔ menuOpen w = false).

(** The state [closeMenu] leaves. *)
Definition closed (w : World) : World :=
  Dom.updElement t (El.setAttribute "aria-expanded" "false")
    (Dom.updElement m (El.remove "active") w).

(** The state [openMenu] leaves, the focus move aside. *)
Definition opened (w : World) : World :=
  Dom.updElement t (El.setAttribute "aria-expanded" "true")
    (Dom.updElement m (El.add "active") w).

(** A click lands outside both the trigger and the menu. *)
Definition outside (e : Event) : bool :=
  negb (contains page t (target e)) && negb (contains page m (target e)).

(** The operations on the menu: the three functions and the two
    document-level listeners. An outside click is a [DocumentClick] whose
    target lies outside the trigger and the menu, an Escape dismissal a
    [DocumentKeydown] whose key is Escape. *)
Inductive NavOp :=
  | Open
  | Close
  | Toggle
  | DocumentClick (e : Event)
  | DocumentKeydown (e : Event).

Definition navStep (op : NavOp) : JS unit :=
  match op with
  | Open => openMenu page
  | Close => closeMenu page
  | Toggle => toggleMenu page
  | DocumentClick e => navDocumentClick page e
  | DocumentKeydown e => navDocumentKeydown page e
  end.

(** The completions of a sequence of operations, each started in the
    state its predecessor left. *)
Fixpoint navTrace (ops : list NavOp) (w : World) : list (Completion unit) :=
  match ops with
  | [] => []
  | op :: ops' => let c := navStep op w in c :: navTrace ops' (final c)
  end.

End NavigationState.

(** ** Navigation: the focus trap *)

Section FocusTrapState.

Variable page : Page.

(** The state after the handler cancelled the event. *)
Definition cancelled (w : World) : World :=
  mkWorld (elems w) (documentElement w) (bodyOverflow w) (activeElement w)
          (localStorage w) (listeners w) (scrolledIntoView w) true.

(** The state after the handler cancelled the event and focused [n]. *)
Definition wrapped (n : NodeId) (w : World) : World :=
  mkWorld (elems w) (documentElement w) (bodyOverflow w) (Some n) (localStorage w)
          (listeners w) (scrolledIntoView w) true.

(** The keydown is a Tab on the boundary link of its direction. *)
Definition atBoundary (e : Event) (w : World) : bool :=
  String.eqb (key e) "Tab"
  && ((shiftKey e && Dom.sameNode (activeElement w) (head (menuLinks page)))
      || (negb (shiftKey e) && Dom.sameNode (activeElement w) (lastOf (menuLinks page)))).

End FocusTrapState.

(** ** Active-link marker *)

(** What a link exposes after the pass. *)
Definition hasActive (l : NodeId) (w : World) : bool :=
  El.contains "active" (Dom.getElement l w).
Definition ariaCurrent (l : NodeId) (w : World) : option string :=
  El.getAttribute "aria-current" (Dom.getElement l w).
Definition hrefOf (l : NodeId) (w : World) : option string :=
  El.getAttribute "href" (Dom.getElement l w).

(** The three rules in the words of the specification, for a link whose
    declared target is [h]. *)
Definition activeRule (path h : string) : Prop :=
  (∃ p, path = p +:+ h)
  ∨ (path = "/" ∧ h = "index.html")
  ∨ ((∃ p, path = p +:+ "/") ∧ h = "index.html").

(** What [markLink] does to the element it visits. *)
Definition markEl (path : string) (el : Element) : Element :=
  if isActive path (El.getAttribute "href" el)
  then El.setAttribute "aria-current" "page" (El.add "active" el)
  else El.removeAttribute "aria-current" (El.remove "active" el).

(** ** Theme controller *)

(** The marker applied to the page root and the persisted preference. *)
Definition dataTheme (w : World) : option string :=
  El.getAttribute "data-theme" (documentElement w).
Definition savedTheme (w : World) : option string := localStorage w !! "theme".

(** The mode a toggle applies when the root carries [cur]. *)
Definition opposite (cur : option string) : string :=
  if JsString.strictEq cur "dark" then "light" else "dark".

(** The state a click on the toggle leaves. *)
Definition toggled (themeToggle : NodeId) (w : World) : World :=
  final (themeToggleClick themeToggle w).

(** The state after mode [t] has been applied, persisted and announced. *)
Definition applied (tt : NodeId) (t : string) (w : World) : World :=
  let label := if String.eqb t "dark"
               then "Switch to light mode" else "Switch to dark mode" in
  Dom.updElement tt (El.setAttribute "aria-label" label)
    (mkWorld (elems w) (El.setAttribute "data-theme" t (documentElement w))
             (bodyOverflow w) (activeElement w) (<["theme" := t]> (localStorage w))
             (listeners w) (scrolledIntoView w) (defaultPrevented w)).

(** The test under which initialization applies the marker. *)
Definition resolvesDark (page : Page) (w : World) : bool :=
  JsString.strictEq (savedTheme w) "dark"
  || (JsString.falsy (savedTheme w) && systemPrefersDark page).

(** ** Smooth-scroll controller *)

(** The state after a click was intercepted and the page scrolled to
    [tgt]. *)
Definition scrolledTo (tgt : NodeId) (w : World) : World :=
  let w1 := mkWorld (elems w) (documentElement w) (bodyOverflow w) (activeElement w)
                    (localStorage w) (listeners w) (scrolledIntoView w ++ [tgt]) true in
  let w2 := Dom.updElement tgt (El.setAttribute "tabindex" "-1") w1 in
  mkWorld (elems w2) (documentElement w2) (bodyOverflow w2) (Some tgt)
          (localStorage w2) (listeners w2) (scrolledIntoView w2) (defaultPrevented w2).

(** ** Reachable states of the whole script *)

Section ReachableStates.

Variable page : Page.

(** A new event starts out not cancelled. *)
Definition fresh (w : World) : World :=
  mkWorld (elems w) (documentElement w) (bodyOverflow w) (activeElement w)
          (localStorage w) (listeners w) (scrolledIntoView w) false.

(** The states a page load can reach from the state [w0] the markup
    describes: [init] runs once, then registered listeners run on events,
    one invocation at a time, whether they complete normally or not. *)
Inductive reachable (w0 : World) : World → Prop :=
  | reach_init : reachable w0 (final (init page w0))
  | reach_event w l e :
      reachable w0 w → l ∈ listeners w →
      reachable w0 (final (handle page (l_handler l) e (fresh w))).

End ReachableStates.

(** [m] keeps [P], however it completes. *)
Definition preserves {A} (P : World → Prop) (m : JS A) : Prop :=
  ∀ w, P w → P (final (m w)).

(** The page root is [r]. *)
Definition rootIs (r : Element) (w : World) : Prop := documentElement w = r.

(** The marker on the root is absent, ['dark'] or ['light']. *)
Definition themeOk (w : World) : Prop :=
  dataTheme w = None ∨ dataTheme w = Some "dark" ∨ dataTheme w = Some "light".

(** ** A concrete page *)

Module Example.

(** Handles: 0 the menu trigger, 1 the menu, 2 and 3 its two links, 4 an
    anchor with href [#], 5 the theme toggle, 6 the lightbox overlay, 7 its
    image, 8 its close button, 9 a gallery image, 10 the element with id
    [main], 11 an anchor with href [#missing]. *)
Definition page : Page :=
  {| navToggle := Some 0;
     navMenu := Some 1;
     menuLinks := [2; 3];
     anchorLinks := [4; 11];
     navLinks := [2; 3];
     themeToggle := Some 5;
     lightbox := Some 6;
     lightboxImg := Some 7;
     lightboxClose := Some 8;
     galleryImages := [9];
     contains := λ a b, Nat.eqb a b || (Nat.eqb a 1 && (Nat.eqb b 2 || Nat.eqb b 3));
     querySelector := λ _ sel,
       if String.eqb sel "#main" then Matched (Some 10)
       else if String.eqb sel "#1" then InvalidSelector
       else Matched None;
     pathname := "/";
     systemPrefersDark := true |}.

Definition el (classes : list string) (attrs : list (string * string)) (s a : string)
  : Element := mkElement classes (list_to_map attrs) s a.

(** The state the markup describes: menu closed, no theme marker, nothing
    persisted, nothing focused. *)
Definition world : World :=
  mkWorld
    (list_to_map
       [(0, el ["nav-toggle"] [("aria-expanded", "false")] "" "");
        (1, el ["nav-menu"] [] "" "");
        (2, el ["nav-link"] [("href", "index.html")] "" "");
        (3, el ["nav-link"; "active"] [("href", ""); ("aria-current", "page")] "" "");
        (4, el [] [("href", "#")] "" "");
        (5, el ["theme-toggle"] [] "" "");
        (6, el ["lightbox"] [("id", "lightbox")] "" "");
        (7, el [] [("id", "lightbox-img")] "" "");
        (8, el ["lightbox-close"] [] "" "");
        (9, el [] [] "photo.jpg" "A photo");
        (10, el [] [("id", "main")] "" "");
        (11, el [] [("href", "#missing")] "" "")])
    El.empty "" None ∅ [] [] false.

Definition withFocus (n : NodeId) (w : World) : World :=
  mkWorld (elems w) (documentElement w) (bodyOverflow w) (Some n) (localStorage w)
          (listeners w) (scrolledIntoView w) (defaultPrevented w).

Definition withSaved (v : string) (w : World) : World :=
  mkWorld (elems w) (documentElement w) (bodyOverflow w) (activeElement w)
          (<["theme" := v]> (localStorage w)) (listeners w) (scrolledIntoView w)
          (defaultPrevented w).

Definition tab : Event := mkEvent "Tab" false 3.
Definition shiftTab : Event := mkEvent "Tab" true 2.
Definition escape : Event := mkEvent "Escape" false 2.
Definition click (n : NodeId) : Event := mkEvent "" false n.

(** The same page without a close button in the lightbox. *)
Definition pageNoClose : Page :=
  {| navToggle := navToggle page; navMenu := navMenu page; menuLinks := menuLinks page;
     anchorLinks := anchorLinks page; navLinks := navLinks page;
     themeToggle := themeToggle page;
     lightbox := lightbox page; lightboxImg := lightboxImg page; lightboxClose := None;
     galleryImages := galleryImages page; contains := contains page;
     querySelector := querySelector page; pathname := pathname page;
     systemPrefersDark := systemPrefersDark page |}.

(** The same page without the image element of the lightbox. *)
Definition pageNoImg : Page :=
  {| navToggle := navToggle page; navMenu := navMenu page; menuLinks := menuLinks page;
     anchorLinks := anchorLinks page; navLinks := navLinks page;
     themeToggle := themeToggle page;
     lightbox := lightbox page; lightboxImg := None; lightboxClose := lightboxClose page;
     galleryImages := galleryImages page; contains := contains page;
     querySelector := querySelector page; pathname := pathname page;
     systemPrefersDark := systemPrefersDark page |}.

(** A menu with a single link, handle 2. *)
Definition pageOneLink : Page :=
  {| navToggle := navToggle page; navMenu := navMenu page; menuLinks := [2];
     anchorLinks := anchorLinks page; navLinks := [2];
     themeToggle := themeToggle page;
     lightbox := lightbox page; lightboxImg := lightboxImg page;
     lightboxClose := lightboxClose page;
     galleryImages := galleryImages page; contains := contains page;
     querySelector := querySelector page; pathname := pathname page;
     systemPrefersDark := systemPrefersDark page |}.

End Example.

(** ** The claims that fail, in the words of the specification *)

(** C3, as stated: the wraps of the focus trap occur only when the menu is
    open. *)
Definition wraps_only_when_open (page : Page) (m : NodeId) : Prop :=
  ∀ e w, defaultPrevented w = false →
         defaultPrevented (final (handleMenuKeydown page e w)) = true →
         menuOpen m w = true.

(** C2, as stated: the marker on the page root is ['dark'] or absent. *)
Definition dark_or_absent (w : World) : Prop :=
  dataTheme w = None ∨ dataTheme w = Some "dark".

(** C5, as stated: two toggles return the applied attribute and the
    persisted value to their originals. *)
Definition toggle_twice_restores (tt : NodeId) (w : World) : Prop :=
  dataTheme (toggled tt (toggled tt w)) = dataTheme w
  ∧ savedTheme (toggled tt (toggled tt w)) = savedTheme w.

(** C9, as stated: a persisted value other than ['dark'] keeps
    initialization from applying the marker, whatever the environment
    prefers. *)
Definition saved_value_overrides_system (page : Page) (w : World) : Prop :=
  ∀ s, savedTheme w = Some s → s ≠ "dark" →
       dataTheme (final (initDarkMode page w)) = dataTheme w.

(** ** Further observations *)

(** The state with [ls] appended to the registered listeners. *)
Definition registered (ls : list Listener) (w : World) : World :=
  mkWorld (elems w) (documentElement w) (bodyOverflow w) (activeElement w)
          (localStorage w) (listeners w ++ ls) (scrolledIntoView w) (defaultPrevented w).

(** The listeners each [init*] function registers, in registration order. *)
Definition navListeners (t m : NodeId) : list Listener :=
  [mkListener (TNode t) "click" H_toggleMenu;
   mkListener TDocument "click" H_navDocumentClick;
   mkListener TDocument "keydown" H_navDocumentKeydown;
   mkListener (TNode m) "keydown" H_handleMenuKeydown].

Definition anchorListeners (links : list NodeId) : list Listener :=
  map (λ link, mkListener (TNode link) "click" (H_anchorClick link)) links.

Definition themeListeners (tt : NodeId) : list Listener :=
  [mkListener (TNode tt) "click" (H_themeToggleClick tt)].

Definition galleryListeners (lb : NodeId) (im cl : option NodeId) (imgs : list NodeId)
  : list Listener :=
  flat_map (λ img, [mkListener (TNode img) "click" (H_galleryClick lb im cl img);
                    mkListener (TNode img) "keydown" (H_galleryKeydown lb im cl img)])
           imgs.

Definition closingListeners (lb c : NodeId) : list Listener :=
  [mkListener (TNode c) "click" (H_closeLightbox lb);
   mkListener (TNode lb) "click" (H_lightboxClick lb);
   mkListener TDocument "keydown" (H_lightboxDocumentKeydown lb)].

Definition lightboxListeners (page : Page) : list Listener :=
  match lightbox page with
  | None => []
  | Some lb =>
      match galleryImages page with
      | [] => []
      | imgs =>
          galleryListeners lb (lightboxImg page) (lightboxClose page) imgs
          ++ match lightboxClose page with
             | Some c => closingListeners lb c
             | None => []
             end
      end
  end.

Definition initListeners (page : Page) : list Listener :=
  match navToggle page, navMenu page with
  | Some t, Some m => navListeners t m
  | _, _ => []
  end
  ++ anchorListeners (anchorLinks page)
  ++ match themeToggle page with
     | Some toggle => themeListeners toggle
     | None => []
     end
  ++ lightboxListeners page.

(** The lightbox lacks its close button although the guard lets it through:
    the one situation in which [init] completes abruptly. *)
Definition closeButtonMissing (page : Page) : bool :=
  match lightbox page, galleryImages page, lightboxClose page with
  | Some _, _ :: _, None => true
  | _, _, _ => false
  end.

(** The elements after [markLink] has visited [links] in order. *)
Fixpoint markAll (path : string) (links : list NodeId) (w : World) : World :=
  match links with
  | [] => w
  | l :: links' => markAll path links' (Dom.updElement l (markEl path) w)
  end.

(** The store holds at [l] an element the pass would leave as it is. *)
Definition settled (path : string) (l : NodeId) (w : World) : Prop :=
  ∃ el, elems w !! l = Some el ∧ markEl path el = el.

(** Page scrolling is suppressed exactly when the overlay is visible. *)
Definition scrollLockInSync (lb : NodeId) (w : World) : Prop :=
  bodyOverflow w = if hasActive lb w then "hidden" else "".

(** The listeners of the lightbox, as operations on the overlay [lb] with
    its (possibly missing) image [im] and close button [cl]. *)
Inductive LightboxOp :=
  | GalleryClick (this : NodeId)
  | GalleryKeydown (this : NodeId) (e : Event)
  | CloseClick
  | OverlayClick (e : Event)
  | LightboxKeydown (e : Event).

Definition lightboxStep (lb : NodeId) (im cl : option NodeId) (op : LightboxOp) : JS unit :=
  match op with
  | GalleryClick this => galleryClick lb im cl this
  | GalleryKeydown this e => galleryKeydown lb im cl this e
  | CloseClick => closeLightbox lb
  | OverlayClick e => lightboxClick lb e
  | LightboxKeydown e => lightboxDocumentKeydown lb e
  end.

Fixpoint lightboxTrace (lb : NodeId) (im cl : option NodeId) (ops : list LightboxOp)
    (w : World) : list (Completion unit) :=
  match ops with
  | [] => []
  | op :: ops' =>
      let c := lightboxStep lb im cl op w in c :: lightboxTrace lb im cl ops' (final c)
  end.

(** Against the storage [s0] the page was loaded with, only the ['theme']
    key may differ, and it holds its old value, ['dark'] or ['light']. *)
Definition storageOk (s0 : gmap string string) (w : World) : Prop :=
  (∀ k, k ≠ "theme" → localStorage w !! k = s0 !! k)
  ∧ (savedTheme w = s0 !! "theme"
     ∨ savedTheme w = Some "dark" ∨ savedTheme w = Some "light").

(** The lightbox is absent, has no gallery, or has both inner elements. *)
Definition lightboxComplete (page : Page) : Prop :=
  lightbox page = None ∨ galleryImages page = []
  ∨ (is_Some (lightboxImg page) ∧ is_Some (lightboxClose page)).

(** * Properties *)

(** Splitting a conjunction into its conjuncts, and nothing else. *)
Ltac conjuncts := repeat match goal with |- _ ∧ _ => split end.

(** Unfolding the monad down to state transformers. *)
Ltac js_unfold :=
  unfold Dom.classList_add, Dom.classList_remove, Dom.classList_contains,
    Dom.getAttribute, Dom.setAttribute, Dom.removeAttribute, Dom.get_src, Dom.get_alt,
    Dom.set_src, Dom.set_alt, Dom.root_getAttribute, Dom.root_setAttribute,
    Dom.set_bodyOverflow, Dom.focus, Dom.getItem, Dom.setItem, Dom.addEventListener,
    Dom.scrollIntoView, Dom.preventDefault, Dom.deref, Dom.throw, Dom.get, Dom.modify,
    bind, ret in *.

(** ** JavaScript strings *)

Module JsStringFacts.

Import JsString.

Lemma substring_whole (s : string) : String.substring 0 (String.length s) s = s.
Proof. induction s as [|c s IH]; simpl; [reflexivity | now rewrite IH]. Qed.

Lemma substring_append_suffix (p t : string) :
  String.substring (String.length p) (String.length t) (p +:+ t) = t.
Proof.
  induction p as [|c p IH]; simpl; [apply substring_whole | exact IH].
Qed.

Lemma length_append (p t : string) :
  String.length (p +:+ t) = String.length p + String.length t.
Proof. induction p as [|c p IH]; simpl; [reflexivity | now rewrite IH]. Qed.

Lemma split_at (s : string) (k : nat) :
  k <= String.length s ->
  exists p, s = p +:+ String.substring k (String.length s - k) s.
Proof.
  revert k. induction s as [|c s IH]; intros k Hk.
  - exists "". destruct k; reflexivity.
  - destruct k as [|k].
    + exists "". simpl. now rewrite substring_whole.
    + simpl in Hk. destruct (IH k) as [p Hp]; [lia|].
      exists (String c p). simpl. rewrite Hp at 1. reflexivity.
Qed.

(** The embedding of [endsWith] decides the suffix relation. *)
Lemma endsWith_spec (s t : string) :
  endsWith s t = true <-> exists p, s = p +:+ t.
Proof.
  unfold endsWith. split.
  - destruct (Nat.eqb_spec (String.length t) 0) as [H0|H0].
    + intros _. exists s. destruct t; [|discriminate].
      clear. induction s as [|c s IH]; [reflexivity|].
      change (String c s +:+ "") with (String c (s +:+ "")). now rewrite <- IH.
    + destruct (Nat.ltb_spec (String.length s) (String.length t)) as [Hlt|Hge];
        [discriminate|].
      intros Heq. apply String.eqb_eq in Heq.
      destruct (split_at s (String.length s - String.length t)) as [p Hp]; [lia|].
      exists p. rewrite Hp at 1. f_equal.
      replace (String.length s - (String.length s - String.length t))
        with (String.length t) by lia.
      exact Heq.
  - intros [p ->].
    destruct (Nat.eqb_spec (String.length t) 0) as [H0|H0]; [reflexivity|].
    rewrite length_append.
    destruct (Nat.ltb_spec (String.length p + String.length t) (String.length t));
      [lia|].
    replace (String.length p + String.length t - String.length t)
      with (String.length p) by lia.
    rewrite substring_append_suffix. apply String.eqb_refl.
Qed.

Lemma endsWith_empty (s : string) : endsWith s "" = true.
Proof. reflexivity. Qed.

Example endsWith_trailing_slash : endsWith "/blog/" "/" = true.
Proof. reflexivity. Qed.

Example endsWith_other_page : endsWith "/about.html" "index.html" = false.
Proof. reflexivity. Qed.

Example endsWith_longer_search : endsWith "index.html" "/index.html" = false.
Proof. reflexivity. Qed.

Example endsWith_null : endsWith "/annull" (ToString None) = true.
Proof. reflexivity. Qed.

Example falsy_empty : falsy (Some "") = true ∧ falsy None = true ∧ falsy (Some "light") = false.
Proof. repeat split. Qed.

End JsStringFacts.

(** ** Elements *)

Module ElFacts.

Import El.

Lemma contains_add c e : contains c (add c e) = true.
Proof.
  unfold add. destruct (contains c e) eqn:Hc; unfold contains in *; simpl.
  - exact Hc.
  - apply bool_decide_eq_true. apply elem_of_app. right. apply list_elem_of_singleton.
    reflexivity.
Qed.

Lemma contains_remove c e : contains c (remove c e) = false.
Proof.
  unfold contains, remove; simpl. apply bool_decide_eq_false.
  rewrite list_elem_of_filter. tauto.
Qed.

Lemma contains_setAttribute c k v e : contains c (setAttribute k v e) = contains c e.
Proof. reflexivity. Qed.

Lemma contains_removeAttribute c k e : contains c (removeAttribute k e) = contains c e.
Proof. reflexivity. Qed.

Lemma getAttribute_add k c e : getAttribute k (add c e) = getAttribute k e.
Proof. reflexivity. Qed.

Lemma getAttribute_remove k c e : getAttribute k (remove c e) = getAttribute k e.
Proof. reflexivity. Qed.

Lemma getAttribute_setAttribute k v e : getAttribute k (setAttribute k v e) = Some v.
Proof. apply lookup_insert_eq. Qed.

Lemma getAttribute_removeAttribute k e : getAttribute k (removeAttribute k e) = None.
Proof. apply lookup_delete_eq. Qed.

End ElFacts.

Module DomFacts.

Import Dom.

Lemma getElement_updElement n n' f w :
  getElement n (updElement n' f w) =
    if decide (n' = n) then f (getElement n w) else getElement n w.
Proof.
  unfold getElement, updElement; simpl. rewrite lookup_insert.
  destruct (decide (n' = n)) as [->|]; reflexivity.
Qed.

End DomFacts.

(** ** Navigation: the expanded-state attribute *)

Section NavigationFacts.

Variable page : Page.
Variables t m : NodeId.
Hypothesis Htoggle : navToggle page = Some t.
Hypothesis Hmenu : navMenu page = Some m.

Lemma expandedInSync_alt w :
  expandedInSync t m w ↔
  ariaExpanded t w = Some (if menuOpen m w then "true" else "false").
Proof.
  unfold expandedInSync. destruct (menuOpen m w); split.
  - intros [H _]. now apply H.
  - intros ->. split; split; congruence.
  - intros [_ H]. now apply H.
  - intros ->. split; split; congruence.
Qed.

Lemma closeMenu_run w : closeMenu page w = Normal () (closed t m w).
Proof. unfold closeMenu. rewrite Htoggle, Hmenu. reflexivity. Qed.

Lemma closed_menuOpen w : menuOpen m (closed t m w) = false.
Proof.
  unfold menuOpen, closed. rewrite !DomFacts.getElement_updElement.
  destruct (decide (t = m)); rewrite decide_True by reflexivity;
    rewrite ?ElFacts.contains_setAttribute; apply ElFacts.contains_remove.
Qed.

Lemma closed_ariaExpanded w : ariaExpanded t (closed t m w) = Some "false".
Proof.
  unfold ariaExpanded, closed. rewrite DomFacts.getElement_updElement.
  rewrite decide_True by reflexivity. apply ElFacts.getAttribute_setAttribute.
Qed.

Lemma closed_inSync w : expandedInSync t m (closed t m w).
Proof.
  apply expandedInSync_alt. now rewrite closed_menuOpen, closed_ariaExpanded.
Qed.

Lemma openMenu_run w :
  ∃ w', openMenu page w = Normal () w'
        ∧ elems w' = elems (opened t m w)
        ∧ activeElement w' =
            match head (menuLinks page) with
            | Some l => Some l
            | None => activeElement w
            end.
Proof.
  unfold openMenu. rewrite Htoggle, Hmenu. js_unfold; simpl.
  destruct (head (menuLinks page)); eexists; (split; [reflexivity|]); simpl; auto.
Qed.

Lemma opened_menuOpen w : menuOpen m (opened t m w) = true.
Proof.
  unfold menuOpen, opened. rewrite !DomFacts.getElement_updElement.
  destruct (decide (t = m)); rewrite decide_True by reflexivity;
    rewrite ?ElFacts.contains_setAttribute; apply ElFacts.contains_add.
Qed.

Lemma opened_ariaExpanded w : ariaExpanded t (opened t m w) = Some "true".
Proof.
  unfold ariaExpanded, opened. rewrite DomFacts.getElement_updElement.
  rewrite decide_True by reflexivity. apply ElFacts.getAttribute_setAttribute.
Qed.

(** Both observations depend on the element store only. *)
Lemma inSync_elems w w' : elems w = elems w' → expandedInSync t m w → expandedInSync t m w'.
Proof.
  unfold expandedInSync, ariaExpanded, menuOpen, Dom.getElement. now intros ->.
Qed.

Lemma opened_inSync w : expandedInSync t m (opened t m w).
Proof.
  apply expandedInSync_alt. now rewrite opened_menuOpen, opened_ariaExpanded.
Qed.

Lemma openMenu_inSync w :
  thrown (openMenu page w) = None ∧ expandedInSync t m (final (openMenu page w)).
Proof.
  destruct (openMenu_run w) as (w' & -> & He & _). split; [reflexivity|].
  simpl. eapply inSync_elems; [symmetry; exact He | apply opened_inSync].
Qed.

Lemma closeMenu_inSync w :
  thrown (closeMenu page w) = None ∧ expandedInSync t m (final (closeMenu page w)).
Proof. rewrite closeMenu_run. split; [reflexivity | apply closed_inSync]. Qed.

Lemma toggleMenu_run w :
  toggleMenu page w = if menuOpen m w then closeMenu page w else openMenu page w.
Proof.
  unfold toggleMenu, menuOpen. rewrite Hmenu. js_unfold; simpl.
  destruct (El.contains "active" (Dom.getElement m w)); reflexivity.
Qed.

Lemma toggleMenu_inSync w :
  thrown (toggleMenu page w) = None ∧ expandedInSync t m (final (toggleMenu page w)).
Proof.
  rewrite toggleMenu_run.
  destruct (menuOpen m w); [apply closeMenu_inSync | apply openMenu_inSync].
Qed.

Lemma navDocumentClick_run e w :
  navDocumentClick page e w = if outside page t m e then closeMenu page w else Normal () w.
Proof.
  unfold navDocumentClick, outside. rewrite Htoggle, Hmenu. js_unfold; simpl.
  destruct (contains page t (target e)); simpl; [reflexivity|].
  destruct (contains page m (target e)); reflexivity.
Qed.

Lemma navDocumentKeydown_run e w :
  navDocumentKeydown page e w =
    if String.eqb (key e) "Escape" && menuOpen m w
    then bind (closeMenu page) (λ _, Dom.focus t) w
    else Normal () w.
Proof.
  unfold navDocumentKeydown. rewrite Htoggle, Hmenu.
  destruct (String.eqb (key e) "Escape"); [|reflexivity].
  js_unfold; simpl. fold (menuOpen m w). destruct (menuOpen m w); reflexivity.
Qed.

Lemma escape_inSync e w :
  String.eqb (key e) "Escape" && menuOpen m w = true →
  thrown (navDocumentKeydown page e w) = None
  ∧ expandedInSync t m (final (navDocumentKeydown page e w))
  ∧ activeElement (final (navDocumentKeydown page e w)) = Some t.
Proof.
  intros H. rewrite navDocumentKeydown_run, H. unfold bind.
  rewrite closeMenu_run. js_unfold; simpl.
  split; [reflexivity | split; [|reflexivity]].
  apply (inSync_elems (closed t m w)); [reflexivity | apply closed_inSync].
Qed.

Lemma navStep_inSync op w :
  expandedInSync t m w →
  thrown (navStep page op w) = None ∧ expandedInSync t m (final (navStep page op w)).
Proof.
  intros Hw. destruct op as [| | |e|e]; simpl.
  - apply openMenu_inSync.
  - apply closeMenu_inSync.
  - apply toggleMenu_inSync.
  - rewrite navDocumentClick_run. destruct (outside page t m e);
      [apply closeMenu_inSync | split; [reflexivity | exact Hw]].
  - destruct (String.eqb (key e) "Escape" && menuOpen m w) eqn:He.
    + destruct (escape_inSync e w He) as (? & ? & _). now split.
    + rewrite navDocumentKeydown_run, He. split; [reflexivity | exact Hw].
Qed.

End NavigationFacts.

(** ** Navigation: the focus trap *)

Section FocusTrap.

Variable page : Page.
Variable m : NodeId.
Hypothesis Hmenu : navMenu page = Some m.

Lemma sameNode_Some a b : Dom.sameNode a b = true ↔ ∃ n, a = Some n ∧ b = Some n.
Proof.
  destruct a as [x|], b as [y|]; simpl; split;
    try discriminate; try (intros (n & ? & ?); discriminate).
  - intros H. apply Nat.eqb_eq in H. subst. eauto.
  - intros (n & [= ->] & [= ->]). apply Nat.eqb_refl.
Qed.

Lemma head_lastOf (l : list NodeId) : is_Some (head l) ↔ is_Some (lastOf l).
Proof.
  unfold lastOf. destruct l as [|x l]; simpl.
  - split; intros [? [=]].
  - split; intros _; [|eauto]. apply lookup_lt_is_Some. simpl. lia.
Qed.

Lemma handleMenuKeydown_run e w :
  handleMenuKeydown page e w =
    if String.eqb (key e) "Tab" then
      if shiftKey e && Dom.sameNode (activeElement w) (head (menuLinks page)) then
        match lastOf (menuLinks page) with
        | Some l => Normal () (wrapped l w)
        | None => Throw TypeError (cancelled w)
        end
      else if negb (shiftKey e)
              && Dom.sameNode (activeElement w) (lastOf (menuLinks page)) then
        match head (menuLinks page) with
        | Some f => Normal () (wrapped f w)
        | None => Throw TypeError (cancelled w)
        end
      else Normal () w
    else Normal () w.
Proof.
  unfold handleMenuKeydown. rewrite Hmenu. js_unfold; simpl.
  destruct (String.eqb (key e) "Tab"); [|reflexivity].
  destruct (shiftKey e); simpl.
  - destruct (Dom.sameNode (activeElement w) (head (menuLinks page))) eqn:Hs;
      [|reflexivity].
    apply sameNode_Some in Hs as (n & Ha & Hh).
    destruct (proj1 (head_lastOf (menuLinks page))) as [l Hl]; [eauto|].
    now rewrite Hl.
  - destruct (Dom.sameNode (activeElement w) (lastOf (menuLinks page))) eqn:Hs;
      [|reflexivity].
    apply sameNode_Some in Hs as (n & Ha & Hl).
    destruct (proj2 (head_lastOf (menuLinks page))) as [f Hf]; [eauto|].
    now rewrite Hf.
Qed.

Lemma handleMenuKeydown_no_throw e w : thrown (handleMenuKeydown page e w) = None.
Proof.
  rewrite handleMenuKeydown_run.
  destruct (String.eqb (key e) "Tab"); [|reflexivity].
  destruct (shiftKey e); simpl.
  - destruct (Dom.sameNode (activeElement w) (head (menuLinks page))) eqn:Hs;
      [|reflexivity].
    apply sameNode_Some in Hs as (n & Ha & Hh).
    destruct (proj1 (head_lastOf (menuLinks page))) as [l Hl]; [eauto|].
    now rewrite Hl.
  - destruct (Dom.sameNode (activeElement w) (lastOf (menuLinks page))) eqn:Hs;
      [|reflexivity].
    apply sameNode_Some in Hs as (n & Ha & Hl).
    destruct (proj2 (head_lastOf (menuLinks page))) as [f Hf]; [eauto|].
    now rewrite Hf.
Qed.

Lemma tab_from_last e w l :
  key e = "Tab" → shiftKey e = false →
  activeElement w = Some l → lastOf (menuLinks page) = Some l →
  ∃ f, head (menuLinks page) = Some f
       ∧ handleMenuKeydown page e w = Normal () (wrapped f w).
Proof.
  intros Hk Hs Ha Hl. rewrite handleMenuKeydown_run, Hk, Hs, Ha, Hl. simpl.
  destruct (proj2 (head_lastOf (menuLinks page))) as [f Hf]; [rewrite Hl; eauto|].
  exists f. now rewrite Hf, Nat.eqb_refl.
Qed.

Lemma shift_tab_from_first e w f :
  key e = "Tab" → shiftKey e = true →
  activeElement w = Some f → head (menuLinks page) = Some f →
  ∃ l, lastOf (menuLinks page) = Some l
       ∧ handleMenuKeydown page e w = Normal () (wrapped l w).
Proof.
  intros Hk Hs Ha Hf. rewrite handleMenuKeydown_run, Hk, Hs, Ha, Hf. simpl.
  destruct (proj1 (head_lastOf (menuLinks page))) as [l Hl]; [rewrite Hf; eauto|].
  exists l. now rewrite Hl, Nat.eqb_refl.
Qed.

Lemma pass_through e w :
  atBoundary page e w = false → handleMenuKeydown page e w = Normal () w.
Proof.
  unfold atBoundary. rewrite handleMenuKeydown_run.
  destruct (String.eqb (key e) "Tab"); [|reflexivity]. simpl.
  destruct (shiftKey e); simpl.
  - rewrite orb_false_r. now intros ->.
  - now intros ->.
Qed.

(** The handler reads the focused element and nothing else of the state:
    in particular not the class list of the menu. *)
Lemma handleMenuKeydown_reads_focus_only e w1 w2 :
  activeElement w1 = activeElement w2 →
  thrown (handleMenuKeydown page e w1) = thrown (handleMenuKeydown page e w2)
  ∧ activeElement (final (handleMenuKeydown page e w1))
    = activeElement (final (handleMenuKeydown page e w2))
  ∧ (defaultPrevented w1 = defaultPrevented w2 →
     defaultPrevented (final (handleMenuKeydown page e w1))
     = defaultPrevented (final (handleMenuKeydown page e w2))).
Proof.
  intros Ha. rewrite !handleMenuKeydown_run, Ha.
  destruct (String.eqb (key e) "Tab"); [|simpl; auto].
  destruct (shiftKey e && _); [destruct (lastOf _); simpl; auto|].
  destruct (negb (shiftKey e) && _); [destruct (head _); simpl; auto|].
  simpl; auto.
Qed.

End FocusTrap.

(** ** Active-link marker *)

Section ActiveNavFacts.

Example isActive_home_on_root : isActive "/" (Some "index.html") = true.
Proof. reflexivity. Qed.

Example isActive_home_on_directory : isActive "/portfolio/" (Some "index.html") = true.
Proof. reflexivity. Qed.

Example isActive_home_on_about : isActive "/about.html" (Some "index.html") = false.
Proof. reflexivity. Qed.

Example isActive_about_on_about : isActive "/site/about.html" (Some "about.html") = true.
Proof. reflexivity. Qed.

Lemma isActive_rule path h : isActive path (Some h) = true ↔ activeRule path h.
Proof.
  unfold isActive, activeRule; simpl.
  rewrite !orb_true_iff, !andb_true_iff, !JsStringFacts.endsWith_spec, !String.eqb_eq.
  tauto.
Qed.

Lemma updElement_twice n f g w :
  Dom.updElement n f (Dom.updElement n g w) = Dom.updElement n (λ el, f (g el)) w.
Proof.
  unfold Dom.updElement; simpl. f_equal.
  rewrite insert_insert_eq. f_equal.
  unfold Dom.getElement; simpl. now rewrite lookup_insert_eq.
Qed.

Lemma updElement_ext n f g w :
  f (Dom.getElement n w) = g (Dom.getElement n w) →
  Dom.updElement n f w = Dom.updElement n g w.
Proof. unfold Dom.updElement. now intros ->. Qed.

Lemma markLink_run path l w :
  markLink path l w = Normal () (Dom.updElement l (markEl path) w).
Proof.
  unfold markLink. js_unfold; simpl.
  destruct (isActive path (El.getAttribute "href" (Dom.getElement l w))) eqn:Ha;
    rewrite updElement_twice; f_equal; apply updElement_ext;
    unfold markEl; now rewrite Ha.
Qed.

Lemma markEl_href path el :
  El.getAttribute "href" (markEl path el) = El.getAttribute "href" el.
Proof.
  unfold markEl. destruct (isActive _ _); unfold El.getAttribute; simpl.
  - now rewrite lookup_insert_ne.
  - now rewrite lookup_delete_ne.
Qed.

Lemma markEl_active path el :
  El.contains "active" (markEl path el) = isActive path (El.getAttribute "href" el).
Proof.
  unfold markEl. destruct (isActive _ _).
  - rewrite ElFacts.contains_setAttribute. apply ElFacts.contains_add.
  - rewrite ElFacts.contains_removeAttribute. apply ElFacts.contains_remove.
Qed.

Lemma markEl_ariaCurrent path el :
  El.getAttribute "aria-current" (markEl path el) =
    if isActive path (El.getAttribute "href" el) then Some "page" else None.
Proof.
  unfold markEl. destruct (isActive _ _).
  - apply ElFacts.getAttribute_setAttribute.
  - apply ElFacts.getAttribute_removeAttribute.
Qed.

(** The pass over a list of links: it completes normally, keeps every
    [href], marks each listed link by its own [href], and leaves every
    other element alone. *)
Lemma forEach_markLink path links :
  ∀ w, ∃ w',
    Dom.forEach (markLink path) links w = Normal () w'
    ∧ (∀ l, hrefOf l w' = hrefOf l w)
    ∧ (∀ l, l ∈ links →
            hasActive l w' = isActive path (hrefOf l w)
            ∧ ariaCurrent l w' = if isActive path (hrefOf l w)
                                 then Some "page" else None)
    ∧ (∀ l, l ∉ links → Dom.getElement l w' = Dom.getElement l w).
Proof.
  induction links as [|x links IH]; intros w.
  - exists w. split; [reflexivity|]. split; [reflexivity|]. split; [|reflexivity].
    intros l Hl. inversion Hl.
  - simpl. unfold bind at 1. rewrite markLink_run.
    destruct (IH (Dom.updElement x (markEl path) w)) as (w' & Hrun & Hhref & Hin & Hout).
    exists w'. split; [exact Hrun|].
    assert (Hx : ∀ l, hrefOf l (Dom.updElement x (markEl path) w) = hrefOf l w).
    { intros l. unfold hrefOf. rewrite DomFacts.getElement_updElement.
      destruct (decide (x = l)); [apply markEl_href | reflexivity]. }
    split; [|split].
    + intros l. now rewrite Hhref, Hx.
    + intros l Hl. destruct (decide (l ∈ links)) as [Hl'|Hl'].
      * rewrite <- Hx. now apply Hin.
      * apply elem_of_cons in Hl as [->|Hl]; [|contradiction].
        unfold hasActive, ariaCurrent. rewrite (Hout x Hl').
        rewrite DomFacts.getElement_updElement, decide_True by reflexivity.
        unfold hrefOf. now rewrite markEl_active, markEl_ariaCurrent.
    + intros l Hl. apply not_elem_of_cons in Hl as [Hne Hl].
      rewrite (Hout l Hl), DomFacts.getElement_updElement.
      now rewrite decide_False by congruence.
Qed.

End ActiveNavFacts.

(** ** Theme controller *)

Section DarkModeFacts.

Lemma themeToggleClick_no_throw tt w : thrown (themeToggleClick tt w) = None.
Proof. reflexivity. Qed.

Lemma toggled_dataTheme tt w : dataTheme (toggled tt w) = Some (opposite (dataTheme w)).
Proof.
  unfold toggled, themeToggleClick, dataTheme, opposite. js_unfold; simpl.
  apply ElFacts.getAttribute_setAttribute.
Qed.

Lemma toggled_savedTheme tt w : savedTheme (toggled tt w) = Some (opposite (dataTheme w)).
Proof.
  unfold toggled, themeToggleClick, savedTheme, dataTheme, opposite. js_unfold; simpl.
  apply lookup_insert_eq.
Qed.

Lemma opposite_cases cur :
  (cur = Some "dark" ∧ opposite cur = "light")
  ∨ (cur ≠ Some "dark" ∧ opposite cur = "dark").
Proof.
  unfold opposite. destruct cur as [s|]; simpl.
  - destruct (String.eqb_spec s "dark") as [->|Hne]; [left | right]; split;
      congruence.
  - right. split; [discriminate | reflexivity].
Qed.

Lemma opposite_opposite cur :
  opposite (Some (opposite cur)) = if JsString.strictEq cur "dark" then "dark" else "light".
Proof. unfold opposite. destruct (JsString.strictEq cur "dark"); reflexivity. Qed.

Lemma toggled_twice_dataTheme tt w :
  dataTheme (toggled tt (toggled tt w)) =
    Some (if JsString.strictEq (dataTheme w) "dark" then "dark" else "light").
Proof. now rewrite !toggled_dataTheme, opposite_opposite. Qed.

Lemma toggled_twice_savedTheme tt w :
  savedTheme (toggled tt (toggled tt w)) =
    Some (if JsString.strictEq (dataTheme w) "dark" then "dark" else "light").
Proof. now rewrite toggled_savedTheme, toggled_dataTheme, opposite_opposite. Qed.

Lemma toggled_applied tt w : toggled tt w = applied tt (opposite (dataTheme w)) w.
Proof. reflexivity. Qed.

Lemma applied_applied tt a b w : applied tt a (applied tt b w) = applied tt a w.
Proof.
  unfold applied, Dom.updElement, Dom.getElement, El.setAttribute; simpl.
  rewrite !insert_insert_eq, lookup_insert_eq; simpl.
  now rewrite insert_insert_eq.
Qed.

(** On a state a toggle has produced, two more toggles change nothing at
    all: root, storage and the label of the trigger are back. *)
Lemma toggled_thrice tt w : toggled tt (toggled tt (toggled tt w)) = toggled tt w.
Proof.
  rewrite (toggled_applied tt (toggled tt (toggled tt w))).
  rewrite toggled_twice_dataTheme.
  rewrite (toggled_applied tt (toggled tt w)), applied_applied.
  rewrite (toggled_applied tt w), applied_applied.
  f_equal. unfold opposite at 1; simpl.
  destruct (opposite_cases (dataTheme w)) as [[-> ->]|[Hne ->]]; [reflexivity|].
  destruct (dataTheme w) as [s|]; simpl; [|reflexivity].
  destruct (String.eqb_spec s "dark"); [congruence | reflexivity].
Qed.

Lemma initDarkMode_run page w :
  ∃ w', initDarkMode page w = Normal () w'
        ∧ localStorage w' = localStorage w
        ∧ documentElement w' =
            match themeToggle page with
            | Some _ =>
                if resolvesDark page w
                then El.setAttribute "data-theme" "dark" (documentElement w)
                else documentElement w
            | None => documentElement w
            end.
Proof.
  unfold initDarkMode, resolvesDark, savedTheme.
  destruct (themeToggle page) as [tt|]; [|eexists; split; [reflexivity | auto]].
  js_unfold; simpl.
  destruct (JsString.strictEq (localStorage w !! "theme") "dark"
            || JsString.falsy (localStorage w !! "theme") && systemPrefersDark page);
    eexists; (split; [reflexivity | auto]).
Qed.

Lemma initDarkMode_dataTheme page w :
  dataTheme (final (initDarkMode page w)) =
    if bool_decide (is_Some (themeToggle page)) && resolvesDark page w
    then Some "dark" else dataTheme w.
Proof.
  destruct (initDarkMode_run page w) as (w' & -> & _ & Hroot). simpl.
  unfold dataTheme. rewrite Hroot.
  destruct (themeToggle page) as [tt|]; simpl; [|reflexivity].
  destruct (resolvesDark page w); [apply ElFacts.getAttribute_setAttribute | reflexivity].
Qed.

End DarkModeFacts.

(** ** Smooth-scroll controller *)

Section SmoothScrollFacts.

Variable page : Page.

Lemma anchorClick_run this e w :
  anchorClick page this e w =
    if JsString.strictEq (hrefOf this w) "#" then Normal () w
    else match querySelector page w (JsString.ToString (hrefOf this w)) with
         | InvalidSelector => Throw SyntaxError w
         | Matched None => Normal () w
         | Matched (Some tgt) => Normal () (scrolledTo tgt w)
         end.
Proof.
  unfold anchorClick, hrefOf. js_unfold; simpl.
  destruct (JsString.strictEq _ "#"); [reflexivity|].
  destruct (querySelector page w _) as [|[tgt|]]; reflexivity.
Qed.

End SmoothScrollFacts.

(** ** Lightbox controller *)

Section LightboxFacts.

Variable page : Page.

Lemma initLightbox_inert w :
  lightbox page = None ∨ galleryImages page = [] →
  initLightbox page w = Normal () w.
Proof.
  unfold initLightbox. intros [H|H]; rewrite H; [reflexivity|].
  destruct (lightbox page); reflexivity.
Qed.

(** Registering the two listeners of each gallery image never throws and
    touches the listener list only. *)
Lemma gallery_listeners_run lb im cl imgs :
  ∀ w, ∃ w',
    Dom.forEach (λ img,
        Dom.addEventListener (TNode img) "click" (H_galleryClick lb im cl img);;
        Dom.addEventListener (TNode img) "keydown" (H_galleryKeydown lb im cl img))
      imgs w = Normal () w'
    ∧ elems w' = elems w ∧ documentElement w' = documentElement w
    ∧ bodyOverflow w' = bodyOverflow w ∧ activeElement w' = activeElement w
    ∧ localStorage w' = localStorage w
    ∧ listeners w' =
        listeners w ++
        flat_map (λ img, [mkListener (TNode img) "click" (H_galleryClick lb im cl img);
                          mkListener (TNode img) "keydown" (H_galleryKeydown lb im cl img)])
                 imgs.
Proof.
  induction imgs as [|x imgs IH]; intros w.
  - exists w. simpl. rewrite app_nil_r. repeat split.
  - simpl. js_unfold; simpl.
    match goal with |- ∃ w', Dom.forEach _ _ ?w1 = _ ∧ _ => destruct (IH w1)
      as (w' & Hrun & He & Hd & Hb & Ha & Hs & Hl) end.
    exists w'. simpl in *. rewrite Hrun, He, Hd, Hb, Ha, Hs, Hl.
    rewrite <- !app_assoc. repeat split.
Qed.

(** With all four prerequisites present, initialization completes
    normally. *)
Lemma initLightbox_complete lb im cl w :
  lightbox page = Some lb → lightboxImg page = Some im → lightboxClose page = Some cl →
  thrown (initLightbox page w) = None.
Proof.
  intros Hlb Him Hcl. unfold initLightbox. rewrite Hlb, Hcl.
  destruct (Nat.eqb (length (galleryImages page)) 0); [reflexivity|].
  unfold bind at 1.
  destruct (gallery_listeners_run lb (lightboxImg page) (Some cl) (galleryImages page) w)
    as (w' & -> & _).
  reflexivity.
Qed.

(** With the close button missing, initialization registers the gallery
    listeners and then throws, before any closing listener exists. *)
Lemma initLightbox_no_close lb w :
  lightbox page = Some lb → lightboxClose page = None → galleryImages page ≠ [] →
  thrown (initLightbox page w) = Some TypeError
  ∧ listeners (final (initLightbox page w)) =
      listeners w ++
      flat_map (λ img,
          [mkListener (TNode img) "click" (H_galleryClick lb (lightboxImg page) None img);
           mkListener (TNode img) "keydown"
             (H_galleryKeydown lb (lightboxImg page) None img)])
        (galleryImages page).
Proof.
  intros Hlb Hcl Hne.
  destruct (gallery_listeners_run lb (lightboxImg page) None (galleryImages page) w)
    as (w' & Hrun & _ & _ & _ & _ & _ & Hl).
  assert (Hinit : initLightbox page w = Throw TypeError w').
  { unfold initLightbox. rewrite Hlb, Hcl.
    destruct (galleryImages page) as [|x imgs] eqn:Hg; [congruence|].
    change (Nat.eqb (length (x :: imgs)) 0) with false. cbv iota.
    unfold bind at 1. now rewrite Hrun. }
  rewrite Hinit. split; [reflexivity | exact Hl].
Qed.

(** Opening with both inner elements present never throws. *)
Lemma openLightbox_complete lb im cl this w :
  thrown (openLightbox lb (Some im) (Some cl) this w) = None.
Proof. reflexivity. Qed.

(** Opening without the inner image throws at the first assignment. *)
Lemma openLightbox_no_img lb cl this w :
  openLightbox lb None cl this w = Throw TypeError w.
Proof. reflexivity. Qed.

(** Opening without the close button shows the overlay, locks scrolling
    and then throws. *)
Lemma openLightbox_no_close lb im this w :
  thrown (openLightbox lb (Some im) None this w) = Some TypeError
  ∧ El.contains "active" (Dom.getElement lb (final (openLightbox lb (Some im) None this w)))
    = true
  ∧ bodyOverflow (final (openLightbox lb (Some im) None this w)) = "hidden".
Proof.
  unfold openLightbox. js_unfold; simpl. split; [reflexivity|]. split; [|reflexivity].
  unfold Dom.getElement at 1. unfold Dom.updElement at 1. simpl.
  rewrite lookup_insert_eq. apply ElFacts.contains_add.
Qed.

End LightboxFacts.

(** ** Reachable states of the whole script *)

Section Reachability.

Variable page : Page.

Lemma preserves_ret {A} P (a : A) : preserves P (ret a).
Proof. intros w H. exact H. Qed.

Lemma preserves_bind {A B} P (m : JS A) (f : A → JS B) :
  preserves P m → (∀ a, preserves P (f a)) → preserves P (bind m f).
Proof.
  intros Hm Hf w Hw. unfold bind. specialize (Hm w Hw).
  destruct (m w) as [a w'|e w']; simpl in *; [now apply Hf | exact Hm].
Qed.

Lemma preserves_get {A} P (f : World → A) : preserves P (Dom.get f).
Proof. intros w H. exact H. Qed.

Lemma preserves_throw {A} P e : preserves P (@Dom.throw A e).
Proof. intros w H. exact H. Qed.

Lemma preserves_deref {A} P (o : option A) : preserves P (Dom.deref o).
Proof. destruct o; [apply preserves_ret | apply preserves_throw]. Qed.

Lemma preserves_modify P f : (∀ w, P w → P (f w)) → preserves P (Dom.modify f).
Proof. intros H w Hw. now apply H. Qed.

Lemma preserves_forEach {A} P (f : A → JS unit) l :
  (∀ a, preserves P (f a)) → preserves P (Dom.forEach f l).
Proof.
  intros Hf. induction l as [|x l IH]; simpl;
    [apply preserves_ret | apply preserves_bind; auto].
Qed.

Ltac keeps_root :=
  repeat first
    [ apply preserves_ret
    | apply preserves_get
    | apply preserves_throw
    | apply preserves_deref
    | apply preserves_forEach; intros ?
    | apply preserves_bind; [|intros ?]
    | apply preserves_modify; intros ? ?; assumption
    | progress cbv zeta
    | match goal with
      | |- preserves _ (match ?x with _ => _ end) => destruct x
      end ].

Lemma closeMenu_keeps_root r : preserves (rootIs r) (closeMenu page).
Proof. unfold closeMenu, Dom.classList_remove, Dom.setAttribute. keeps_root. Qed.

Lemma openMenu_keeps_root r : preserves (rootIs r) (openMenu page).
Proof.
  unfold openMenu, Dom.classList_add, Dom.setAttribute, Dom.focus. keeps_root.
Qed.

Lemma closeLightbox_keeps_root r lb : preserves (rootIs r) (closeLightbox lb).
Proof. unfold closeLightbox, Dom.classList_remove, Dom.set_bodyOverflow. keeps_root. Qed.

Lemma openLightbox_keeps_root r lb im cl this :
  preserves (rootIs r) (openLightbox lb im cl this).
Proof.
  unfold openLightbox, Dom.get_src, Dom.get_alt, Dom.set_src, Dom.set_alt,
    Dom.classList_add, Dom.set_bodyOverflow, Dom.focus.
  keeps_root.
Qed.

(** Every listener but the theme toggle leaves the page root alone. *)
Lemma handle_keeps_root r h e :
  (∀ tt, h ≠ H_themeToggleClick tt) → preserves (rootIs r) (handle page h e).
Proof.
  intros Hh. destruct h; simpl; try (exfalso; eapply Hh; reflexivity).
  - unfold toggleMenu. keeps_root.
  - unfold navDocumentClick. keeps_root.
  - unfold navDocumentKeydown. keeps_root.
  - unfold handleMenuKeydown. keeps_root.
  - unfold anchorClick. keeps_root.
  - apply openLightbox_keeps_root.
  - unfold galleryKeydown. keeps_root.
  - apply closeLightbox_keeps_root.
  - unfold lightboxClick. keeps_root.
  - unfold lightboxDocumentKeydown. keeps_root.
Qed.

Lemma initNavigation_keeps_root r : preserves (rootIs r) (initNavigation page).
Proof. unfold initNavigation, Dom.addEventListener. keeps_root. Qed.

Lemma initSmoothScroll_keeps_root r : preserves (rootIs r) (initSmoothScroll page).
Proof. unfold initSmoothScroll, Dom.addEventListener. keeps_root. Qed.

Lemma updateActiveNav_keeps_root r : preserves (rootIs r) (updateActiveNav page).
Proof.
  unfold updateActiveNav, markLink, Dom.getAttribute, Dom.classList_add,
    Dom.classList_remove, Dom.setAttribute, Dom.removeAttribute.
  keeps_root.
Qed.

Lemma initLightbox_keeps_root r : preserves (rootIs r) (initLightbox page).
Proof. unfold initLightbox, Dom.addEventListener. keeps_root. Qed.

Lemma keeps_root_themeOk {A} (m : JS A) :
  (∀ r, preserves (rootIs r) m) → preserves themeOk m.
Proof.
  intros H w Hw. specialize (H (documentElement w) w eq_refl).
  unfold themeOk, dataTheme, rootIs in *. now rewrite H.
Qed.

Lemma toggle_themeOk tt w : themeOk (toggled tt w).
Proof.
  unfold themeOk. rewrite toggled_dataTheme.
  destruct (opposite_cases (dataTheme w)) as [[_ ->]|[_ ->]]; auto.
Qed.

Lemma initDarkMode_themeOk : preserves themeOk (initDarkMode page).
Proof.
  intros w Hw. unfold themeOk. rewrite initDarkMode_dataTheme.
  destruct (bool_decide _ && _); [auto | exact Hw].
Qed.

Lemma init_themeOk : preserves themeOk (init page).
Proof.
  unfold init.
  apply preserves_bind; [apply keeps_root_themeOk, initNavigation_keeps_root | intros _].
  apply preserves_bind; [apply keeps_root_themeOk, initSmoothScroll_keeps_root | intros _].
  apply preserves_bind; [apply keeps_root_themeOk, updateActiveNav_keeps_root | intros _].
  apply preserves_bind; [apply initDarkMode_themeOk | intros _].
  apply keeps_root_themeOk, initLightbox_keeps_root.
Qed.

Lemma handle_themeOk h e : preserves themeOk (handle page h e).
Proof.
  destruct h; try (apply keeps_root_themeOk; intros r; apply handle_keeps_root;
                   intros tt; discriminate).
  intros w _. apply toggle_themeOk.
Qed.

Lemma reachable_themeOk w0 w : themeOk w0 → reachable page w0 w → themeOk w.
Proof.
  intros H0 Hr. induction Hr as [|w l e _ IH _].
  - now apply init_themeOk.
  - apply handle_themeOk. exact IH.
Qed.

End Reachability.

(** * The claims *)

(** C4. For every sequence of open, close, toggle, outside-click and Escape
    operations on the navigation menu, after every operation the trigger's
    [aria-expanded] attribute is ['true'] exactly when the menu carries the
    open marker class and ['false'] exactly when it does not. Each of open,
    close, toggle, an outside click and an Escape on an open menu leaves the
    two in step whatever the state before; a click inside and a keydown that
    is not an Escape on an open menu change nothing; hence along every
    sequence of operations started on a page whose markup has them in step,
    no operation throws and they are in step after every operation. *)
Theorem C4_aria_expanded_in_sync (page : Page) (t m : NodeId) :
  navToggle page = Some t → navMenu page = Some m →
  (∀ w, expandedInSync t m (final (openMenu page w)))
  ∧ (∀ w, expandedInSync t m (final (closeMenu page w)))
  ∧ (∀ w, expandedInSync t m (final (toggleMenu page w)))
  ∧ (∀ e w, outside page t m e = true →
            expandedInSync t m (final (navDocumentClick page e w)))
  ∧ (∀ e w, key e = "Escape" → menuOpen m w = true →
            expandedInSync t m (final (navDocumentKeydown page e w)))
  ∧ (∀ e w, outside page t m e = false → navDocumentClick page e w = Normal () w)
  ∧ (∀ e w, String.eqb (key e) "Escape" && menuOpen m w = false →
            navDocumentKeydown page e w = Normal () w)
  ∧ (∀ ops w0, expandedInSync t m w0 →
               Forall (λ c, thrown c = None ∧ expandedInSync t m (final c))
                      (navTrace page ops w0)).
Proof.
  intros Ht Hm. conjuncts.
  - intros w. now apply openMenu_inSync.
  - intros w. now apply closeMenu_inSync.
  - intros w. now apply toggleMenu_inSync.
  - intros e w He. rewrite (navDocumentClick_run page t m Ht Hm), He.
    now apply closeMenu_inSync.
  - intros e w Hk Ho.
    destruct (escape_inSync page t m Ht Hm e w) as (_ & H & _); [|exact H].
    rewrite Hk, Ho. reflexivity.
  - intros e w He. now rewrite (navDocumentClick_run page t m Ht Hm), He.
  - intros e w He. now rewrite (navDocumentKeydown_run page t m Ht Hm), He.
  - intros ops. induction ops as [|op ops IH]; intros w0 H0; simpl.
    + constructor.
    + destruct (navStep_inSync page t m Ht Hm op w0 H0) as [Hthrow Hsync].
      constructor; [split; assumption | apply IH; exact Hsync].
Qed.

Lemma C4_witness :
  Forall (λ c, thrown c = None ∧ expandedInSync 0 1 (final c))
         (navTrace Example.page
            [Toggle; DocumentKeydown Example.escape; Open; DocumentClick (Example.click 10);
             DocumentKeydown Example.tab; Toggle; Close]
            Example.world).
Proof.
  refine (proj2 (proj2 (proj2 (proj2 (proj2 (proj2 (proj2
            (C4_aria_expanded_in_sync Example.page 0 1 eq_refl eq_refl)))))))
          _ Example.world _).
  split; vm_compute; split; intros H; (reflexivity || discriminate H).
Defined.

(** With the menu closed and focus on its last link, a Tab is cancelled and
    focus moves to the first link. *)
Lemma C3_counterexample : ¬ wraps_only_when_open Example.page 1.
Proof.
  intros H.
  specialize (H Example.tab (Example.withFocus 3 Example.world) eq_refl eq_refl).
  vm_compute in H. discriminate H.
Qed.

(** C3, amended. For every keydown event handled by the menu focus trap:
    Tab without Shift while focus is on the last menu link cancels the
    default and moves focus to the first link; Shift+Tab while focus is on
    the first link cancels the default and moves focus to the last link;
    every other keydown passes through with the state unchanged. The handler
    never throws, and it reads nothing but the focused element, so the wraps
    occur whether or not the menu carries the open marker. *)
Theorem C3_focus_trap_wraps (page : Page) (m : NodeId) (e : Event) (w : World) :
  navMenu page = Some m →
  thrown (handleMenuKeydown page e w) = None
  ∧ (∀ l, key e = "Tab" → shiftKey e = false →
          activeElement w = Some l → lastOf (menuLinks page) = Some l →
          ∃ f, head (menuLinks page) = Some f
               ∧ final (handleMenuKeydown page e w) = wrapped f w)
  ∧ (∀ f, key e = "Tab" → shiftKey e = true →
          activeElement w = Some f → head (menuLinks page) = Some f →
          ∃ l, lastOf (menuLinks page) = Some l
               ∧ final (handleMenuKeydown page e w) = wrapped l w)
  ∧ (atBoundary page e w = false → final (handleMenuKeydown page e w) = w)
  ∧ (∀ w2, activeElement w2 = activeElement w →
           defaultPrevented w2 = defaultPrevented w →
           activeElement (final (handleMenuKeydown page e w2))
           = activeElement (final (handleMenuKeydown page e w))
           ∧ defaultPrevented (final (handleMenuKeydown page e w2))
             = defaultPrevented (final (handleMenuKeydown page e w))).
Proof.
  intros Hm. conjuncts.
  - now apply (handleMenuKeydown_no_throw page m).
  - intros l Hk Hs Ha Hl.
    destruct (tab_from_last page m Hm e w l Hk Hs Ha Hl) as (f & Hf & ->). eauto.
  - intros f Hk Hs Ha Hf.
    destruct (shift_tab_from_first page m Hm e w f Hk Hs Ha Hf) as (l & Hl & ->). eauto.
  - intros Hb. now rewrite (pass_through page m Hm e w Hb).
  - intros w2 Ha Hp.
    destruct (handleMenuKeydown_reads_focus_only page m Hm e w2 w Ha) as (_ & H1 & H2).
    split; [exact H1 | now apply H2].
Qed.

Lemma C3_witness :
  final (handleMenuKeydown Example.page Example.tab (Example.withFocus 3 Example.world))
  = wrapped 2 (Example.withFocus 3 Example.world)
  ∧ menuOpen 1 (Example.withFocus 3 Example.world) = false.
Proof.
  split; [|reflexivity].
  destruct (proj1 (proj2 (C3_focus_trap_wraps Example.page 1 Example.tab
                            (Example.withFocus 3 Example.world) eq_refl))
              3 eq_refl eq_refl eq_refl eq_refl) as (f & Hf & ->).
  injection Hf as <-. reflexivity.
Defined.

(** C10. When the menu contains exactly one focusable link and that link
    holds keyboard focus, both Tab and Shift+Tab keydowns are intercepted
    (default prevented) and focus is re-assigned to that same link. *)
Theorem C10_single_link_trap (page : Page) (m l : NodeId) (e : Event) (w : World) :
  navMenu page = Some m → menuLinks page = [l] → activeElement w = Some l →
  key e = "Tab" →
  thrown (handleMenuKeydown page e w) = None
  ∧ defaultPrevented (final (handleMenuKeydown page e w)) = true
  ∧ activeElement (final (handleMenuKeydown page e w)) = Some l
  ∧ final (handleMenuKeydown page e w) = wrapped l w.
Proof.
  intros Hm Hl Ha Hk.
  assert (Hrun : handleMenuKeydown page e w = Normal () (wrapped l w)).
  { rewrite (handleMenuKeydown_run page m Hm), Hk, Hl, Ha. simpl.
    rewrite Nat.eqb_refl. destruct (shiftKey e); reflexivity. }
  rewrite Hrun. repeat split.
Qed.

Lemma C10_witness :
  (defaultPrevented
     (final (handleMenuKeydown Example.pageOneLink Example.tab
               (Example.withFocus 2 Example.world))) = true
   ∧ activeElement
       (final (handleMenuKeydown Example.pageOneLink Example.tab
                 (Example.withFocus 2 Example.world))) = Some 2)
  ∧ (defaultPrevented
       (final (handleMenuKeydown Example.pageOneLink Example.shiftTab
                 (Example.withFocus 2 Example.world))) = true
     ∧ activeElement
         (final (handleMenuKeydown Example.pageOneLink Example.shiftTab
                   (Example.withFocus 2 Example.world))) = Some 2).
Proof.
  split.
  - destruct (C10_single_link_trap Example.pageOneLink 1 2 Example.tab
                (Example.withFocus 2 Example.world) eq_refl eq_refl eq_refl eq_refl)
      as (_ & Hp & Ha & _).
    exact (conj Hp Ha).
  - destruct (C10_single_link_trap Example.pageOneLink 1 2 Example.shiftTab
                (Example.withFocus 2 Example.world) eq_refl eq_refl eq_refl eq_refl)
      as (_ & Hp & Ha & _).
    exact (conj Hp Ha).
Defined.

(** C6. [updateActiveNav] marks a navigation link active exactly when one of
    three rules holds: the current path ends with the link's declared
    target, the current path is [/] and the target is [index.html], or the
    current path ends with [/] and the target is [index.html]. So a link
    targeting [index.html] is marked on path [/] and on every path ending in
    [/], and is not marked on path [/about.html]; every non-matching link
    has both the active marker class and the [aria-current] attribute
    removed regardless of prior state. *)
Theorem C6_updateActiveNav_rules (page : Page) (w : World) (l : NodeId) (h : string) :
  l ∈ navLinks page → hrefOf l w = Some h →
  thrown (updateActiveNav page w) = None
  ∧ (hasActive l (final (updateActiveNav page w)) = true ↔ activeRule (pathname page) h)
  ∧ (ariaCurrent l (final (updateActiveNav page w)) = Some "page"
     ↔ activeRule (pathname page) h)
  ∧ (¬ activeRule (pathname page) h →
     hasActive l (final (updateActiveNav page w)) = false
     ∧ ariaCurrent l (final (updateActiveNav page w)) = None)
  ∧ (h = "index.html" → pathname page = "/" →
     hasActive l (final (updateActiveNav page w)) = true
     ∧ ariaCurrent l (final (updateActiveNav page w)) = Some "page")
  ∧ (h = "index.html" → (∃ p, pathname page = p +:+ "/") →
     hasActive l (final (updateActiveNav page w)) = true
     ∧ ariaCurrent l (final (updateActiveNav page w)) = Some "page")
  ∧ (h = "index.html" → pathname page = "/about.html" →
     hasActive l (final (updateActiveNav page w)) = false
     ∧ ariaCurrent l (final (updateActiveNav page w)) = None).
Proof.
  intros Hl Hh. unfold updateActiveNav.
  destruct (forEach_markLink (pathname page) (navLinks page) w)
    as (w' & -> & _ & Hin & _).
  destruct (Hin l Hl) as [Hact Haria]. rewrite Hh in Hact, Haria. cbn [final thrown].
  assert (Hon : isActive (pathname page) (Some h) = true →
                hasActive l w' = true ∧ ariaCurrent l w' = Some "page").
  { intros Ha. now rewrite Hact, Haria, Ha. }
  assert (Hoff : isActive (pathname page) (Some h) = false →
                 hasActive l w' = false ∧ ariaCurrent l w' = None).
  { intros Ha. now rewrite Hact, Haria, Ha. }
  conjuncts.
  - reflexivity.
  - rewrite Hact. apply isActive_rule.
  - rewrite Haria, <- isActive_rule.
    destruct (isActive (pathname page) (Some h)); split; congruence.
  - intros Hn. apply Hoff. apply not_true_is_false. now rewrite isActive_rule.
  - intros -> Hp. apply Hon, isActive_rule. right. left. auto.
  - intros -> Hp. apply Hon, isActive_rule. right. right. auto.
  - intros -> Hp. apply Hoff. rewrite Hp. reflexivity.
Qed.

Lemma C6_witness :
  hasActive 2 (final (updateActiveNav Example.page Example.world)) = true
  ∧ ariaCurrent 2 (final (updateActiveNav Example.page Example.world)) = Some "page".
Proof.
  refine (proj1 (proj2 (proj2 (proj2 (proj2
            (C6_updateActiveNav_rules Example.page Example.world 2 "index.html" _ _)))))
          eq_refl eq_refl).
  - vm_compute. apply list_elem_of_here.
  - reflexivity.
Defined.

(** C8. For every current page path, a navigation link whose [href]
    attribute is the empty string is always marked active by
    [updateActiveNav] (active class added and [aria-current] set to
    ['page']), because every string ends with the empty string. *)
Theorem C8_empty_href_always_active (page : Page) (w : World) (l : NodeId) :
  l ∈ navLinks page → hrefOf l w = Some "" →
  thrown (updateActiveNav page w) = None
  ∧ hasActive l (final (updateActiveNav page w)) = true
  ∧ ariaCurrent l (final (updateActiveNav page w)) = Some "page".
Proof.
  intros Hl Hh. unfold updateActiveNav.
  destruct (forEach_markLink (pathname page) (navLinks page) w)
    as (w' & -> & _ & Hin & _).
  destruct (Hin l Hl) as [Hact Haria]. rewrite Hh in Hact, Haria. cbn [final thrown].
  assert (Ha : isActive (pathname page) (Some "") = true).
  { unfold isActive. change (JsString.ToString (Some "")) with "".
    now rewrite JsStringFacts.endsWith_empty. }
  now rewrite Hact, Haria, Ha.
Qed.

Lemma C8_witness :
  hasActive 3 (final (updateActiveNav Example.page Example.world)) = true
  ∧ ariaCurrent 3 (final (updateActiveNav Example.page Example.world)) = Some "page".
Proof.
  refine (proj2 (C8_empty_href_always_active Example.page Example.world 3 _ _)).
  - vm_compute. apply list_elem_of_further, list_elem_of_here.
  - reflexivity.
Defined.

(** C7. For every anchor link bound by the smooth-scroll controller whose
    [href] attribute is exactly [#], a click never prevents the default
    browser navigation and never triggers a scroll animation or focus move;
    and when the [href] selects no existing element, the click likewise
    falls through to default browser behavior. In both cases the listener
    completes normally and leaves the whole state, cancellation flag
    included, as it found it; a selector the browser rejects leaves the state
    untouched as well. *)
Theorem C7_anchor_click_falls_through (page : Page) (this : NodeId) (e : Event) (w : World) :
  (hrefOf this w = Some "#" → anchorClick page this e w = Normal () w)
  ∧ (querySelector page w (JsString.ToString (hrefOf this w)) = Matched None →
     anchorClick page this e w = Normal () w)
  ∧ (querySelector page w (JsString.ToString (hrefOf this w)) = InvalidSelector →
     final (anchorClick page this e w) = w).
Proof.
  rewrite anchorClick_run. conjuncts.
  - intros ->. reflexivity.
  - intros ->. now destruct (JsString.strictEq _ _).
  - intros ->. now destruct (JsString.strictEq _ _).
Qed.

Lemma C7_witness :
  anchorClick Example.page 4 (Example.click 4) Example.world = Normal () Example.world
  ∧ anchorClick Example.page 11 (Example.click 11) Example.world = Normal () Example.world.
Proof.
  split.
  - exact (proj1 (C7_anchor_click_falls_through Example.page 4 (Example.click 4)
                    Example.world) eq_refl).
  - exact (proj1 (proj2 (C7_anchor_click_falls_through Example.page 11 (Example.click 11)
                           Example.world)) eq_refl).
Defined.

(** On the example page, whose environment prefers dark, initialization
    applies ['dark'] and the first click on the toggle then writes
    ['light']. *)
Lemma C2_counterexample :
  ¬ (∀ w, reachable Example.page Example.world w → dark_or_absent w).
Proof.
  intros H.
  assert (Hr : reachable Example.page Example.world
                 (final (handle Example.page
                           (l_handler (mkListener (TNode 5) "click" (H_themeToggleClick 5)))
                           (Example.click 5)
                           (fresh (final (init Example.page Example.world)))))).
  { apply reach_event; [apply reach_init|].
    vm_compute. do 6 apply list_elem_of_further. apply list_elem_of_here. }
  destruct (H _ Hr) as [Hx|Hx]; vm_compute in Hx; discriminate Hx.
Qed.

(** C2, amended. In every state reachable from a page whose root
    [data-theme] attribute is absent, ['dark'] or ['light'], the attribute is
    absent, ['dark'] or ['light']. Initialization either leaves it as it is
    or sets it to ['dark']; a toggle sets it to ['light'] when it was
    ['dark'] and to ['dark'] otherwise; no other listener of the script
    touches the page root. *)
Theorem C2_data_theme_values (page : Page) (w0 w : World) :
  (themeOk w0 → reachable page w0 w → themeOk w)
  ∧ (dataTheme (final (initDarkMode page w)) = dataTheme w
     ∨ dataTheme (final (initDarkMode page w)) = Some "dark")
  ∧ (∀ tt, dataTheme (toggled tt w)
           = Some (if JsString.strictEq (dataTheme w) "dark" then "light" else "dark"))
  ∧ (∀ h e, (∀ tt, h ≠ H_themeToggleClick tt) →
            documentElement (final (handle page h e w)) = documentElement w).
Proof.
  conjuncts.
  - apply reachable_themeOk.
  - rewrite initDarkMode_dataTheme. destruct (bool_decide _ && _); auto.
  - intros tt. apply toggled_dataTheme.
  - intros h e Hh. now apply (handle_keeps_root page (documentElement w) h e Hh w).
Qed.

Lemma C2_witness :
  themeOk (final (handle Example.page (H_themeToggleClick 5) (Example.click 5)
                    (fresh (final (init Example.page Example.world))))).
Proof.
  refine (proj1 (C2_data_theme_values Example.page Example.world _) _ _).
  - left. reflexivity.
  - apply (reach_event Example.page Example.world _
             (mkListener (TNode 5) "click" (H_themeToggleClick 5)));
      [apply reach_init|].
    vm_compute. do 6 apply list_elem_of_further. apply list_elem_of_here.
Defined.

(** On a fresh page (no marker, nothing persisted) two toggles leave
    ['light'] applied and persisted. *)
Lemma C5_counterexample : ¬ toggle_twice_restores 5 Example.world.
Proof. intros [H _]. vm_compute in H. discriminate H. Qed.

(** C5, amended. Every single toggle writes a persisted value equal to the
    mode it just applied. Applying the toggle twice returns the applied
    [data-theme] attribute to its original value when that value was
    ['dark'] or ['light'], and the persisted value under ['theme'] when it
    equalled the attribute; on a state a toggle has produced two further
    toggles restore the whole state. From a root whose attribute is absent
    (or anything but ['dark'] and ['light']) two toggles leave ['light']
    applied and persisted. *)
Theorem C5_toggle_twice (tt : NodeId) (w : World) :
  (savedTheme (toggled tt w) = dataTheme (toggled tt w)
   ∧ dataTheme (toggled tt w) = Some (opposite (dataTheme w)))
  ∧ (dataTheme w = Some "dark" ∨ dataTheme w = Some "light" →
     dataTheme (toggled tt (toggled tt w)) = dataTheme w)
  ∧ (dataTheme w = Some "dark" ∨ dataTheme w = Some "light" →
     savedTheme w = dataTheme w →
     savedTheme (toggled tt (toggled tt w)) = savedTheme w)
  ∧ toggled tt (toggled tt (toggled tt w)) = toggled tt w
  ∧ (dataTheme w ≠ Some "dark" → dataTheme w ≠ Some "light" →
     dataTheme (toggled tt (toggled tt w)) = Some "light"
     ∧ savedTheme (toggled tt (toggled tt w)) = Some "light").
Proof.
  conjuncts.
  - now rewrite toggled_savedTheme, toggled_dataTheme.
  - apply toggled_dataTheme.
  - rewrite toggled_twice_dataTheme. intros [->| ->]; reflexivity.
  - rewrite toggled_twice_savedTheme. intros [H|H] ->; rewrite H; reflexivity.
  - apply toggled_thrice.
  - intros Hd _. rewrite toggled_twice_dataTheme, toggled_twice_savedTheme.
    destruct (opposite_cases (dataTheme w)) as [[H _]|[_ H]]; [contradiction|].
    unfold opposite in H. now destruct (JsString.strictEq (dataTheme w) "dark").
Qed.

Lemma C5_witness :
  dataTheme (toggled 5 (toggled 5 (toggled 5 Example.world)))
  = dataTheme (toggled 5 Example.world)
  ∧ savedTheme (toggled 5 (toggled 5 (toggled 5 Example.world)))
    = savedTheme (toggled 5 Example.world).
Proof.
  split.
  - exact (proj1 (proj2 (C5_toggle_twice 5 (toggled 5 Example.world)))
             (or_introl eq_refl)).
  - exact (proj1 (proj2 (proj2 (C5_toggle_twice 5 (toggled 5 Example.world))))
             (or_introl eq_refl) eq_refl).
Defined.

(** With the empty string persisted and an environment that prefers dark,
    initialization applies the marker. *)
Lemma C9_counterexample :
  ¬ saved_value_overrides_system Example.page (Example.withSaved "" Example.world).
Proof.
  intros H. specialize (H "" eq_refl). vm_compute in H.
  assert (Hne : "" ≠ "dark") by discriminate. specialize (H Hne). discriminate H.
Qed.

(** C9, amended. At theme initialization the system color-scheme preference
    decides only when nothing, or the empty string, is persisted under the
    ['theme'] key: any non-empty persisted value other than exactly ['dark']
    (['light'] or an arbitrary string) leaves the page root untouched, even
    when the environment reports a dark preference; a persisted ['dark']
    applies the marker whatever the environment reports. *)
Theorem C9_saved_theme_overrides_system (page : Page) (w : World) :
  (∀ s, savedTheme w = Some s → s ≠ "dark" → s ≠ "" →
        thrown (initDarkMode page w) = None
        ∧ documentElement (final (initDarkMode page w)) = documentElement w)
  ∧ (∀ tt, themeToggle page = Some tt →
           savedTheme w = None ∨ savedTheme w = Some "" →
           dataTheme (final (initDarkMode page w))
           = if systemPrefersDark page then Some "dark" else dataTheme w)
  ∧ (∀ tt, themeToggle page = Some tt → savedTheme w = Some "dark" →
           dataTheme (final (initDarkMode page w)) = Some "dark").
Proof.
  conjuncts.
  - intros s Hs Hd He.
    destruct (initDarkMode_run page w) as (w' & -> & _ & Hroot).
    split; [reflexivity|]. simpl. rewrite Hroot.
    destruct (themeToggle page); [|reflexivity].
    unfold resolvesDark. rewrite Hs. simpl.
    apply String.eqb_neq in Hd, He. now rewrite Hd, He.
  - intros tt Ht Hs. rewrite initDarkMode_dataTheme, Ht. unfold resolvesDark.
    destruct Hs as [-> | ->]; simpl; now destruct (systemPrefersDark page).
  - intros tt Ht Hs. rewrite initDarkMode_dataTheme, Ht. unfold resolvesDark.
    now rewrite Hs.
Qed.

Lemma C9_witness :
  documentElement (final (initDarkMode Example.page (Example.withSaved "light" Example.world)))
  = documentElement (Example.withSaved "light" Example.world)
  ∧ systemPrefersDark Example.page = true.
Proof.
  split; [|reflexivity].
  refine (proj2 (proj1 (C9_saved_theme_overrides_system Example.page
                          (Example.withSaved "light" Example.world))
                   "light" eq_refl _ _)); discriminate.
Defined.

(** C1, at a page that has the overlay, its image and a gallery image but no
    close button. The guard of [initLightbox] tests the overlay and the
    gallery only: initialization registers the two listeners of the gallery
    image and then throws a [TypeError]; a click on the gallery image then
    shows the overlay, locks scrolling and throws again, with no closing
    listener registered. On the page that lacks the inner image instead,
    initialization succeeds and the click throws at once. *)
Theorem C1_lightbox_guard_misses_inner_elements :
  thrown (initLightbox Example.pageNoClose Example.world) = Some TypeError
  ∧ listeners (final (initLightbox Example.pageNoClose Example.world))
    = [mkListener (TNode 9) "click" (H_galleryClick 6 (Some 7) None 9);
       mkListener (TNode 9) "keydown" (H_galleryKeydown 6 (Some 7) None 9)]
  ∧ thrown (handle Example.pageNoClose (H_galleryClick 6 (Some 7) None 9) (Example.click 9)
              (final (initLightbox Example.pageNoClose Example.world))) = Some TypeError
  ∧ hasActive 6 (final (handle Example.pageNoClose (H_galleryClick 6 (Some 7) None 9)
                          (Example.click 9)
                          (final (initLightbox Example.pageNoClose Example.world)))) = true
  ∧ bodyOverflow (final (handle Example.pageNoClose (H_galleryClick 6 (Some 7) None 9)
                           (Example.click 9)
                           (final (initLightbox Example.pageNoClose Example.world))))
    = "hidden"
  ∧ thrown (initLightbox Example.pageNoImg Example.world) = None
  ∧ mkListener (TNode 9) "click" (H_galleryClick 6 None (Some 8) 9)
    ∈ listeners (final (initLightbox Example.pageNoImg Example.world))
  ∧ thrown (handle Example.pageNoImg (H_galleryClick 6 None (Some 8) 9) (Example.click 9)
              (final (initLightbox Example.pageNoImg Example.world))) = Some TypeError.
Proof.
  conjuncts; try (vm_compute; reflexivity).
  vm_compute. apply list_elem_of_here.
Qed.

(** * Further properties of the script *)

(** ** Registering listeners *)

Lemma registered_nil w : registered [] w = w.
Proof. destruct w. unfold registered; simpl. now rewrite app_nil_r. Qed.

Lemma registered_registered l1 l2 w :
  registered l2 (registered l1 w) = registered (l1 ++ l2) w.
Proof. unfold registered; simpl. now rewrite app_assoc. Qed.

Lemma addEventListener_run t ty h w :
  Dom.addEventListener t ty h w = Normal () (registered [mkListener t ty h] w).
Proof. reflexivity. Qed.

(** ** Navigation controller *)

Lemma initNavigation_exact page w :
  initNavigation page w =
    Normal () (registered match navToggle page, navMenu page with
                          | Some t, Some m => navListeners t m
                          | _, _ => []
                          end w).
Proof.
  unfold initNavigation.
  destruct (navToggle page) as [t|]; [|now rewrite registered_nil].
  destruct (navMenu page) as [m|]; [|now rewrite registered_nil].
  js_unfold; simpl. unfold registered; simpl. now rewrite <- !app_assoc.
Qed.

(** [initNavigation] is inert when the trigger or the menu is missing:
    nothing is registered and the state is untouched. When both exist it
    registers exactly four listeners, in source order, and changes nothing
    else. *)
Theorem initNavigation_registers (page : Page) (w : World) :
  (navToggle page = None ∨ navMenu page = None → initNavigation page w = Normal () w)
  ∧ (∀ t m, navToggle page = Some t → navMenu page = Some m →
            initNavigation page w = Normal () (registered (navListeners t m) w)).
Proof.
  rewrite initNavigation_exact. split.
  - intros [H|H]; rewrite H; [|destruct (navToggle page)]; now rewrite registered_nil.
  - intros t m Ht Hm. now rewrite Ht, Hm.
Qed.

Lemma initNavigation_registers_witness :
  initNavigation Example.page Example.world
  = Normal () (registered (navListeners 0 1) Example.world).
Proof.
  exact (proj2 (initNavigation_registers Example.page Example.world) 0 1 eq_refl eq_refl).
Defined.

(** Opening the menu never throws and marks the menu open; with at least
    one link it leaves focus on the first link, with no links it leaves
    focus where it was. *)
Theorem openMenu_focuses_first_link (page : Page) (t m : NodeId) (w : World) :
  navToggle page = Some t → navMenu page = Some m →
  thrown (openMenu page w) = None
  ∧ menuOpen m (final (openMenu page w)) = true
  ∧ (∀ l links, menuLinks page = l :: links →
                activeElement (final (openMenu page w)) = Some l)
  ∧ (menuLinks page = [] →
     activeElement (final (openMenu page w)) = activeElement w).
Proof.
  intros Ht Hm. destruct (openMenu_run page t m Ht Hm w) as (w' & -> & He & Ha).
  cbn [thrown final]. conjuncts.
  - reflexivity.
  - unfold menuOpen, Dom.getElement. rewrite He.
    apply (opened_menuOpen t m w).
  - intros l links Hl. now rewrite Ha, Hl.
  - intros Hl. now rewrite Ha, Hl.
Qed.

Lemma openMenu_focuses_first_link_witness :
  activeElement (final (openMenu Example.page Example.world)) = Some 2.
Proof.
  exact (proj1 (proj2 (proj2 (openMenu_focuses_first_link Example.page 0 1 Example.world
                                eq_refl eq_refl))) 2 [3] eq_refl).
Defined.

(** The Escape listener acts only on an open menu: it then closes the menu,
    sets the attribute to ['false'] and returns focus to the trigger. On a
    closed menu, and for every other key, it leaves the state untouched. *)
Theorem escape_closes_and_refocuses (page : Page) (t m : NodeId) (e : Event) (w : World) :
  navToggle page = Some t → navMenu page = Some m →
  thrown (navDocumentKeydown page e w) = None
  ∧ (key e = "Escape" → menuOpen m w = true →
     menuOpen m (final (navDocumentKeydown page e w)) = false
     ∧ ariaExpanded t (final (navDocumentKeydown page e w)) = Some "false"
     ∧ activeElement (final (navDocumentKeydown page e w)) = Some t)
  ∧ (key e ≠ "Escape" ∨ menuOpen m w = false →
     navDocumentKeydown page e w = Normal () w).
Proof.
  intros Ht Hm. rewrite (navDocumentKeydown_run page t m Ht Hm). conjuncts.
  - destruct (String.eqb (key e) "Escape" && menuOpen m w); [|reflexivity].
    unfold bind. now rewrite (closeMenu_run page t m Ht Hm).
  - intros Hk Ho. rewrite Hk, Ho.
    change (String.eqb "Escape" "Escape" && true) with true. cbv iota.
    unfold bind. rewrite (closeMenu_run page t m Ht Hm). js_unfold. cbn [final].
    conjuncts; [| |reflexivity].
    + apply (closed_menuOpen t m w).
    + apply (closed_ariaExpanded t m w).
  - intros [Hk|Ho].
    + apply String.eqb_neq in Hk. now rewrite Hk.
    + rewrite Ho. now rewrite andb_false_r.
Qed.

Lemma escape_closes_and_refocuses_witness :
  activeElement
    (final (navDocumentKeydown Example.page Example.escape
              (final (openMenu Example.page Example.world)))) = Some 0.
Proof.
  exact (proj2 (proj2 (proj1 (proj2 (escape_closes_and_refocuses Example.page 0 1
                                       Example.escape
                                       (final (openMenu Example.page Example.world))
                                       eq_refl eq_refl))
                         eq_refl eq_refl))).
Defined.

(** Element operations applied twice. *)
Lemma filter_twice {A} (P : A → Prop) `{∀ x, Decision (P x)} (l : list A) :
  filter P (filter P l) = filter P l.
Proof.
  induction l as [|x l IH]; [reflexivity|].
  rewrite (filter_cons P x l). destruct (decide (P x)) as [Hx|Hx]; [|exact IH].
  rewrite (filter_cons P x (filter P l)), decide_True by exact Hx. now rewrite IH.
Qed.

Lemma El_remove_remove c e : El.remove c (El.remove c e) = El.remove c e.
Proof. unfold El.remove; simpl. f_equal. apply filter_twice. Qed.

Lemma El_add_add c e : El.add c (El.add c e) = El.add c e.
Proof.
  unfold El.add at 1. rewrite ElFacts.contains_add. now destruct (El.add c e).
Qed.

Lemma El_setAttribute_setAttribute k v v' e :
  El.setAttribute k v (El.setAttribute k v' e) = El.setAttribute k v e.
Proof. unfold El.setAttribute; simpl. now rewrite insert_insert_eq. Qed.

Lemma El_removeAttribute_removeAttribute k e :
  El.removeAttribute k (El.removeAttribute k e) = El.removeAttribute k e.
Proof.
  unfold El.removeAttribute; simpl. f_equal.
  apply map_eq. intros i. rewrite !lookup_delete. now destruct (decide (k = i)).
Qed.

Lemma El_setAttribute_remove k v c e :
  El.setAttribute k v (El.remove c e) = El.remove c (El.setAttribute k v e).
Proof. reflexivity. Qed.

(** Closing is idempotent: a second [closeMenu] changes nothing at all. *)
Theorem closeMenu_idempotent (page : Page) (t m : NodeId) (w : World) :
  navToggle page = Some t → navMenu page = Some m →
  bind (closeMenu page) (λ _, closeMenu page) w = closeMenu page w.
Proof.
  intros Ht Hm. unfold bind. rewrite !(closeMenu_run page t m Ht Hm). f_equal.
  unfold closed, Dom.updElement, Dom.getElement; simpl. f_equal.
  apply map_eq. intros i. rewrite !lookup_insert.
  repeat (case_decide; subst; simpl); try congruence; f_equal.
  - rewrite <- !El_setAttribute_remove, El_setAttribute_setAttribute.
    rewrite !El_setAttribute_remove. now rewrite El_remove_remove.
  - apply El_setAttribute_setAttribute.
  - apply El_remove_remove.
Qed.

Lemma closeMenu_idempotent_witness :
  bind (closeMenu Example.page) (λ _, closeMenu Example.page) Example.world
  = closeMenu Example.page Example.world.
Proof. exact (closeMenu_idempotent Example.page 0 1 Example.world eq_refl eq_refl). Defined.

(** A click on the trigger (or inside it) flips the open marker of the
    menu, and the document-level click listener, which the same click
    reaches next, leaves that result alone. *)
Theorem trigger_click_toggles (page : Page) (t m : NodeId) (e : Event) (w : World) :
  navToggle page = Some t → navMenu page = Some m →
  contains page t (target e) = true →
  thrown (toggleMenu page w) = None
  ∧ menuOpen m (final (toggleMenu page w)) = negb (menuOpen m w)
  ∧ navDocumentClick page e (final (toggleMenu page w))
    = Normal () (final (toggleMenu page w)).
Proof.
  intros Ht Hm Hc. conjuncts.
  - apply (toggleMenu_inSync page t m Ht Hm w).
  - rewrite (toggleMenu_run page m Hm). destruct (menuOpen m w); simpl.
    + rewrite (closeMenu_run page t m Ht Hm). apply (closed_menuOpen t m w).
    + destruct (openMenu_run page t m Ht Hm w) as (w' & -> & He & _). simpl.
      unfold menuOpen, Dom.getElement. rewrite He. apply (opened_menuOpen t m w).
  - rewrite (navDocumentClick_run page t m Ht Hm). unfold outside. now rewrite Hc.
Qed.

Lemma trigger_click_toggles_witness :
  menuOpen 1 (final (toggleMenu Example.page Example.world)) = true
  ∧ navDocumentClick Example.page (Example.click 0)
      (final (toggleMenu Example.page Example.world))
    = Normal () (final (toggleMenu Example.page Example.world)).
Proof.
  exact (proj2 (trigger_click_toggles Example.page 0 1 (Example.click 0) Example.world
                  eq_refl eq_refl eq_refl)).
Defined.

(** With no link in the menu the focus trap does nothing, for every key
    and wherever focus is: [undefined] never equals the focused element. *)
Theorem handleMenuKeydown_empty_menu (page : Page) (m : NodeId) (e : Event) (w : World) :
  navMenu page = Some m → menuLinks page = [] →
  handleMenuKeydown page e w = Normal () w.
Proof.
  intros Hm Hl. apply (pass_through page m Hm). unfold atBoundary. rewrite Hl.
  destruct (activeElement w); simpl; now rewrite !andb_false_r.
Qed.

Lemma handleMenuKeydown_empty_menu_witness :
  handleMenuKeydown
    (mkPage (Some 0) (Some 1) [] [] [] None None None None [] (λ _ _, false)
            (λ _ _, Matched None) "/" false)
    Example.tab Example.world
  = Normal () Example.world.
Proof.
  exact (handleMenuKeydown_empty_menu
           (mkPage (Some 0) (Some 1) [] [] [] None None None None [] (λ _ _, false)
                   (λ _ _, Matched None) "/" false)
           1 Example.tab Example.world eq_refl eq_refl).
Defined.

(** ** Smooth-scroll controller *)

(** When the [href] is not [#] and selects an element, the click is
    cancelled, the page scrolls to that element, the element gets
    [tabindex="-1"] and receives focus; no other element is touched. *)
Theorem anchorClick_scrolls_to_target (page : Page) (this tgt : NodeId) (h : string)
    (e : Event) (w : World) :
  hrefOf this w = Some h → h ≠ "#" → querySelector page w h = Matched (Some tgt) →
  anchorClick page this e w = Normal () (scrolledTo tgt w)
  ∧ defaultPrevented (scrolledTo tgt w) = true
  ∧ scrolledIntoView (scrolledTo tgt w) = scrolledIntoView w ++ [tgt]
  ∧ El.getAttribute "tabindex" (Dom.getElement tgt (scrolledTo tgt w)) = Some "-1"
  ∧ activeElement (scrolledTo tgt w) = Some tgt
  ∧ (∀ n, n ≠ tgt → Dom.getElement n (scrolledTo tgt w) = Dom.getElement n w).
Proof.
  intros Hh Hne Hq. conjuncts; try reflexivity.
  - rewrite anchorClick_run, Hh. simpl. apply String.eqb_neq in Hne.
    now rewrite Hne, Hq.
  - unfold scrolledTo, Dom.getElement, Dom.updElement; simpl.
    rewrite lookup_insert_eq. apply ElFacts.getAttribute_setAttribute.
  - intros n Hn. unfold scrolledTo, Dom.getElement, Dom.updElement; simpl.
    now rewrite lookup_insert_ne by congruence.
Qed.

Lemma anchorClick_scrolls_to_target_witness :
  anchorClick Example.page 4 (Example.click 4)
    (Dom.updElement 4 (El.setAttribute "href" "#main") Example.world)
  = Normal () (scrolledTo 10 (Dom.updElement 4 (El.setAttribute "href" "#main")
                                Example.world)).
Proof.
  refine (proj1 (anchorClick_scrolls_to_target Example.page 4 10 "#main" (Example.click 4)
                   (Dom.updElement 4 (El.setAttribute "href" "#main") Example.world)
                   eq_refl _ eq_refl)).
  discriminate.
Defined.

Lemma initSmoothScroll_run page w :
  initSmoothScroll page w = Normal () (registered (anchorListeners (anchorLinks page)) w).
Proof.
  unfold initSmoothScroll. generalize (anchorLinks page) as links.
  intros links. revert w. induction links as [|x links IH]; intros w.
  - simpl. now rewrite registered_nil.
  - simpl. unfold bind at 1. rewrite addEventListener_run, IH.
    now rewrite registered_registered.
Qed.

(** [initSmoothScroll] never throws and registers one click listener per
    anchor, in document order; elements, page root, focus and storage are
    as before. Anchors added to the page later get no listener. *)
Theorem initSmoothScroll_registers (page : Page) (w : World) :
  thrown (initSmoothScroll page w) = None
  ∧ listeners (final (initSmoothScroll page w))
    = listeners w ++ anchorListeners (anchorLinks page)
  ∧ final (initSmoothScroll page w) = registered (anchorListeners (anchorLinks page)) w.
Proof. rewrite initSmoothScroll_run. cbn [thrown final]. conjuncts; reflexivity. Qed.

(** ** Active-link marker *)

Lemma forEach_markLink_markAll path links :
  ∀ w, Dom.forEach (markLink path) links w = Normal () (markAll path links w).
Proof.
  induction links as [|x links IH]; intros w; [reflexivity|].
  simpl. unfold bind. now rewrite markLink_run, IH.
Qed.

Lemma updateActiveNav_run page w :
  updateActiveNav page w = Normal () (markAll (pathname page) (navLinks page) w).
Proof. apply forEach_markLink_markAll. Qed.

Lemma markEl_other_attribute path k el :
  k ≠ "aria-current" → El.getAttribute k (markEl path el) = El.getAttribute k el.
Proof.
  intros Hk. unfold markEl. destruct (isActive _ _); unfold El.getAttribute; simpl.
  - now rewrite lookup_insert_ne by congruence.
  - now rewrite lookup_delete_ne by congruence.
Qed.

Lemma markEl_other_class path c el :
  c ≠ "active" → El.contains c (markEl path el) = El.contains c el.
Proof.
  intros Hc. unfold markEl. destruct (isActive _ _).
  - rewrite ElFacts.contains_setAttribute. unfold El.add, El.contains at 1 3; simpl.
    destruct (El.contains "active" el); [reflexivity|].
    apply bool_decide_ext. rewrite elem_of_app, list_elem_of_singleton. tauto.
  - rewrite ElFacts.contains_removeAttribute. unfold El.remove, El.contains; simpl.
    apply bool_decide_ext. rewrite list_elem_of_filter. tauto.
Qed.

Lemma markEl_src_alt path el : src (markEl path el) = src el ∧ alt (markEl path el) = alt el.
Proof. unfold markEl. now destruct (isActive _ _). Qed.

Lemma markEl_idempotent path el : markEl path (markEl path el) = markEl path el.
Proof.
  unfold markEl at 1. rewrite markEl_href. unfold markEl.
  destruct (isActive path (El.getAttribute "href" el)).
  - change (El.add "active" (El.setAttribute "aria-current" "page" (El.add "active" el)))
      with (El.setAttribute "aria-current" "page" (El.add "active" (El.add "active" el))).
    now rewrite El_setAttribute_setAttribute, El_add_add.
  - change (El.remove "active" (El.removeAttribute "aria-current" (El.remove "active" el)))
      with (El.removeAttribute "aria-current" (El.remove "active" (El.remove "active" el))).
    now rewrite El_removeAttribute_removeAttribute, El_remove_remove.
Qed.

Lemma settled_updElement path x l w :
  l = x ∨ settled path l w → settled path l (Dom.updElement x (markEl path) w).
Proof.
  intros H. unfold settled, Dom.updElement; simpl.
  destruct (decide (x = l)) as [->|Hne].
  - eexists. rewrite lookup_insert_eq. split; [reflexivity | apply markEl_idempotent].
  - destruct H as [->|(el & Hl & Hel)]; [congruence|].
    exists el. now rewrite lookup_insert_ne.
Qed.

Lemma settled_markAll path links :
  ∀ w l, l ∈ links ∨ settled path l w → settled path l (markAll path links w).
Proof.
  induction links as [|x links IH]; intros w l H; simpl.
  - destruct H as [H|H]; [inversion H | exact H].
  - apply IH. destruct (decide (l ∈ links)) as [Hin|Hnin]; [now left|].
    right. apply settled_updElement. destruct H as [H|H]; [|now right].
    apply elem_of_cons in H as [->|H]; [now left | contradiction].
Qed.

Lemma markAll_settled path links :
  ∀ w, (∀ l, l ∈ links → settled path l w) → markAll path links w = w.
Proof.
  induction links as [|x links IH]; intros w H; [reflexivity|]. simpl.
  assert (Hx : Dom.updElement x (markEl path) w = w).
  { destruct (H x) as (el & Hl & Hel); [apply list_elem_of_here|].
    unfold Dom.updElement, Dom.getElement. rewrite Hl; simpl. rewrite Hel.
    rewrite insert_id by exact Hl. now destruct w. }
  rewrite Hx. apply IH. intros l Hl. apply H. now apply list_elem_of_further.
Qed.

(** The pass is idempotent: running [updateActiveNav] a second time changes
    nothing at all. *)
Theorem updateActiveNav_idempotent (page : Page) (w : World) :
  bind (updateActiveNav page) (λ _, updateActiveNav page) w = updateActiveNav page w.
Proof.
  unfold bind. rewrite !updateActiveNav_run. f_equal.
  apply markAll_settled. intros l Hl. apply settled_markAll. now left.
Qed.

Lemma markAll_frame path links :
  ∀ w,
    documentElement (markAll path links w) = documentElement w
    ∧ bodyOverflow (markAll path links w) = bodyOverflow w
    ∧ activeElement (markAll path links w) = activeElement w
    ∧ localStorage (markAll path links w) = localStorage w
    ∧ listeners (markAll path links w) = listeners w
    ∧ scrolledIntoView (markAll path links w) = scrolledIntoView w
    ∧ defaultPrevented (markAll path links w) = defaultPrevented w
    ∧ (∀ l, l ∉ links → Dom.getElement l (markAll path links w) = Dom.getElement l w)
    ∧ (∀ l k, k ≠ "aria-current" →
              El.getAttribute k (Dom.getElement l (markAll path links w))
              = El.getAttribute k (Dom.getElement l w))
    ∧ (∀ l c, c ≠ "active" →
              El.contains c (Dom.getElement l (markAll path links w))
              = El.contains c (Dom.getElement l w))
    ∧ (∀ l, src (Dom.getElement l (markAll path links w)) = src (Dom.getElement l w)
            ∧ alt (Dom.getElement l (markAll path links w)) = alt (Dom.getElement l w)).
Proof.
  induction links as [|x links IH]; intros w; simpl.
  - conjuncts; auto.
  - destruct (IH (Dom.updElement x (markEl path) w))
      as (H1 & H2 & H3 & H4 & H5 & H6 & H7 & H8 & H9 & H10 & H11).
    conjuncts; try assumption.
    + intros l Hl. apply not_elem_of_cons in Hl as [Hne Hl].
      rewrite (H8 l Hl), DomFacts.getElement_updElement.
      now rewrite decide_False by congruence.
    + intros l k Hk. rewrite (H9 l k Hk), DomFacts.getElement_updElement.
      destruct (decide (x = l)); [now apply markEl_other_attribute | reflexivity].
    + intros l c Hc. rewrite (H10 l c Hc), DomFacts.getElement_updElement.
      destruct (decide (x = l)); [now apply markEl_other_class | reflexivity].
    + intros l. destruct (H11 l) as [-> ->]. rewrite DomFacts.getElement_updElement.
      destruct (decide (x = l)); [apply markEl_src_alt | auto].
Qed.

(** [updateActiveNav] never throws and writes nothing but the ['active']
    class and the [aria-current] attribute of the navigation links: page
    root, focus, storage, listeners and every element outside the list are
    as before, and on every element all other attributes and classes are as
    before. *)
Theorem updateActiveNav_frame (page : Page) (w : World) :
  thrown (updateActiveNav page w) = None
  ∧ documentElement (final (updateActiveNav page w)) = documentElement w
  ∧ activeElement (final (updateActiveNav page w)) = activeElement w
  ∧ localStorage (final (updateActiveNav page w)) = localStorage w
  ∧ listeners (final (updateActiveNav page w)) = listeners w
  ∧ (∀ l, l ∉ navLinks page →
          Dom.getElement l (final (updateActiveNav page w)) = Dom.getElement l w)
  ∧ (∀ l k, k ≠ "aria-current" →
            El.getAttribute k (Dom.getElement l (final (updateActiveNav page w)))
            = El.getAttribute k (Dom.getElement l w))
  ∧ (∀ l c, c ≠ "active" →
            El.contains c (Dom.getElement l (final (updateActiveNav page w)))
            = El.contains c (Dom.getElement l w)).
Proof.
  rewrite updateActiveNav_run. cbn [thrown final].
  destruct (markAll_frame (pathname page) (navLinks page) w)
    as (H1 & H2 & H3 & H4 & H5 & H6 & H7 & H8 & H9 & H10 & H11).
  conjuncts; auto.
Qed.

(** A navigation link without an [href] attribute is compared against the
    string ['null']: it is marked active exactly when the current path ends
    with those four characters. *)
Theorem link_without_href_matches_null (page : Page) (w : World) (l : NodeId) :
  l ∈ navLinks page → hrefOf l w = None →
  (hasActive l (final (updateActiveNav page w)) = true
   ↔ ∃ p, pathname page = p +:+ "null")
  ∧ (ariaCurrent l (final (updateActiveNav page w)) = Some "page"
     ↔ ∃ p, pathname page = p +:+ "null").
Proof.
  intros Hl Hh. unfold updateActiveNav.
  destruct (forEach_markLink (pathname page) (navLinks page) w)
    as (w' & -> & _ & Hin & _).
  destruct (Hin l Hl) as [Hact Haria]. rewrite Hh in Hact, Haria. cbn [final].
  assert (Hnull : isActive (pathname page) None = true ↔ ∃ p, pathname page = p +:+ "null").
  { unfold isActive. cbn [JsString.strictEq JsString.ToString].
    rewrite !andb_false_r, !orb_false_r. apply JsStringFacts.endsWith_spec. }
  split.
  - now rewrite Hact.
  - rewrite Haria, <- Hnull.
    destruct (isActive (pathname page) None); split; congruence.
Qed.

Lemma link_without_href_matches_null_witness :
  hasActive 5
    (final (updateActiveNav
              (mkPage None None [] [] [5] None None None None [] (λ _ _, false)
                      (λ _ _, Matched None) "/docs/null" false)
              Example.world)) = true.
Proof.
  refine (proj2 (proj1 (link_without_href_matches_null
                          (mkPage None None [] [] [5] None None None None []
                                  (λ _ _, false) (λ _ _, Matched None) "/docs/null" false)
                          Example.world 5 _ eq_refl)) _).
  - vm_compute. apply list_elem_of_here.
  - exists "/docs/". reflexivity.
Defined.

(** The second rule never decides: whenever the path is [/] the third rule
    holds as well, so the test is the first rule or the third. *)
Theorem isActive_second_rule_redundant (currentPath : string) (href : option string) :
  isActive currentPath href
  = JsString.endsWith currentPath (JsString.ToString href)
    || (JsString.endsWith currentPath "/" && JsString.strictEq href "index.html").
Proof.
  unfold isActive. destruct (String.eqb_spec currentPath "/") as [->|Hne].
  - change (JsString.endsWith "/" "/") with true. cbn [andb].
    destruct (JsString.endsWith "/" (JsString.ToString href));
      destruct (JsString.strictEq href "index.html"); reflexivity.
  - cbn [andb]. now rewrite orb_false_r.
Qed.

(** ** Theme controller *)

Lemma initDarkMode_exact page toggle w :
  themeToggle page = Some toggle →
  initDarkMode page w =
    Normal () (registered (themeListeners toggle)
                 (if resolvesDark page w
                  then Dom.updRoot (El.setAttribute "data-theme" "dark") w
                  else w)).
Proof.
  intros Ht. unfold initDarkMode, resolvesDark, savedTheme. rewrite Ht.
  js_unfold; simpl.
  destruct (JsString.strictEq (localStorage w !! "theme") "dark"
            || JsString.falsy (localStorage w !! "theme") && systemPrefersDark page);
    reflexivity.
Qed.

Lemma initDarkMode_cases page w :
  initDarkMode page w =
    Normal () match themeToggle page with
              | Some toggle =>
                  registered (themeListeners toggle)
                    (if resolvesDark page w
                     then Dom.updRoot (El.setAttribute "data-theme" "dark") w
                     else w)
              | None => w
              end.
Proof.
  destruct (themeToggle page) as [toggle|] eqn:Ht.
  - now apply initDarkMode_exact.
  - unfold initDarkMode. now rewrite Ht.
Qed.

(** Without a theme toggle [initDarkMode] is inert. With one it never
    throws, registers exactly one click listener on the toggle, and writes
    neither [localStorage] nor any element: the page root is the only thing
    it may change. *)
Theorem initDarkMode_effects (page : Page) (w : World) :
  (themeToggle page = None → initDarkMode page w = Normal () w)
  ∧ thrown (initDarkMode page w) = None
  ∧ localStorage (final (initDarkMode page w)) = localStorage w
  ∧ elems (final (initDarkMode page w)) = elems w
  ∧ activeElement (final (initDarkMode page w)) = activeElement w
  ∧ (∀ toggle, themeToggle page = Some toggle →
               listeners (final (initDarkMode page w))
               = listeners w ++ themeListeners toggle).
Proof.
  rewrite initDarkMode_cases. cbn [thrown final].
  destruct (themeToggle page) as [toggle|].
  - conjuncts; try discriminate; try (now destruct (resolvesDark page w)).
    intros ? [= <-]. now destruct (resolvesDark page w).
  - conjuncts; try reflexivity. discriminate.
Qed.

Lemma initDarkMode_effects_witness :
  listeners (final (initDarkMode Example.page Example.world))
  = listeners Example.world ++ themeListeners 5.
Proof.
  exact (proj2 (proj2 (proj2 (proj2 (proj2
           (initDarkMode_effects Example.page Example.world))))) 5 eq_refl).
Defined.

(** After a toggle the label of the trigger names the action the next
    click performs: ['Switch to light mode'] when dark has just been
    applied, ['Switch to dark mode'] when light has. The handler never
    throws and touches no other element. *)
Theorem toggle_label_names_next_action (toggle : NodeId) (w : World) :
  thrown (themeToggleClick toggle w) = None
  ∧ ((dataTheme (toggled toggle w) = Some "dark"
      ∧ El.getAttribute "aria-label" (Dom.getElement toggle (toggled toggle w))
        = Some "Switch to light mode")
     ∨ (dataTheme (toggled toggle w) = Some "light"
        ∧ El.getAttribute "aria-label" (Dom.getElement toggle (toggled toggle w))
          = Some "Switch to dark mode"))
  ∧ (∀ n, n ≠ toggle → Dom.getElement n (toggled toggle w) = Dom.getElement n w).
Proof.
  conjuncts.
  - reflexivity.
  - rewrite toggled_dataTheme, toggled_applied. unfold applied.
    rewrite DomFacts.getElement_updElement, decide_True by reflexivity.
    rewrite ElFacts.getAttribute_setAttribute.
    destruct (opposite_cases (dataTheme w)) as [[_ ->]|[_ ->]]; [right | left];
      split; reflexivity.
  - intros n Hn. rewrite toggled_applied. unfold applied.
    rewrite DomFacts.getElement_updElement. now rewrite decide_False by congruence.
Qed.

(** ** Lightbox controller *)

Lemma galleryClick_effect lb im cl this w :
  thrown (galleryClick lb (Some im) (Some cl) this w) = None
  ∧ src (Dom.getElement im (final (galleryClick lb (Some im) (Some cl) this w)))
    = src (Dom.getElement this w)
  ∧ alt (Dom.getElement im (final (galleryClick lb (Some im) (Some cl) this w)))
    = alt (Dom.getElement this w)
  ∧ hasActive lb (final (galleryClick lb (Some im) (Some cl) this w)) = true
  ∧ bodyOverflow (final (galleryClick lb (Some im) (Some cl) this w)) = "hidden"
  ∧ activeElement (final (galleryClick lb (Some im) (Some cl) this w)) = Some cl.
Proof.
  pose (w1 := Dom.updElement im (El.set_src (src (Dom.getElement this w))) w).
  pose (w2 := Dom.updElement im (El.set_alt (alt (Dom.getElement this w1))) w1).
  pose (w3 := Dom.updElement lb (El.add "active") w2).
  assert (He : ∀ n, Dom.getElement n (final (galleryClick lb (Some im) (Some cl) this w))
                    = Dom.getElement n w3) by reflexivity.
  assert (Hthis : alt (Dom.getElement this w1) = alt (Dom.getElement this w)).
  { unfold w1. rewrite DomFacts.getElement_updElement. now destruct (decide (im = this)). }
  assert (Him : Dom.getElement im w2
                = El.set_alt (alt (Dom.getElement this w))
                    (El.set_src (src (Dom.getElement this w)) (Dom.getElement im w))).
  { unfold w2. rewrite DomFacts.getElement_updElement, decide_True by reflexivity.
    rewrite Hthis. unfold w1.
    now rewrite DomFacts.getElement_updElement, decide_True by reflexivity. }
  conjuncts; try reflexivity.
  - rewrite He. unfold w3. rewrite DomFacts.getElement_updElement, Him.
    now destruct (decide (lb = im)).
  - rewrite He. unfold w3. rewrite DomFacts.getElement_updElement, Him.
    now destruct (decide (lb = im)).
  - unfold hasActive. rewrite He. unfold w3.
    rewrite DomFacts.getElement_updElement, decide_True by reflexivity.
    apply ElFacts.contains_add.
Qed.

(** Activating a gallery image with both inner elements present never
    throws: the overlay's image takes exactly that image's source and
    alternative text, the overlay is marked visible, page scrolling is
    suppressed and focus moves to the close button. The keydown listener
    does the same on Enter and nothing on any other key. *)
Theorem openLightbox_shows_image (lb im cl this : NodeId) (e : Event) (w : World) :
  thrown (galleryClick lb (Some im) (Some cl) this w) = None
  ∧ src (Dom.getElement im (final (galleryClick lb (Some im) (Some cl) this w)))
    = src (Dom.getElement this w)
  ∧ alt (Dom.getElement im (final (galleryClick lb (Some im) (Some cl) this w)))
    = alt (Dom.getElement this w)
  ∧ hasActive lb (final (galleryClick lb (Some im) (Some cl) this w)) = true
  ∧ bodyOverflow (final (galleryClick lb (Some im) (Some cl) this w)) = "hidden"
  ∧ activeElement (final (galleryClick lb (Some im) (Some cl) this w)) = Some cl
  ∧ (key e = "Enter" →
     galleryKeydown lb (Some im) (Some cl) this e w
     = galleryClick lb (Some im) (Some cl) this w)
  ∧ (key e ≠ "Enter" → galleryKeydown lb (Some im) (Some cl) this e w = Normal () w).
Proof.
  destruct (galleryClick_effect lb im cl this w) as (H1 & H2 & H3 & H4 & H5 & H6).
  conjuncts; try assumption.
  - intros Hk. unfold galleryKeydown. now rewrite Hk.
  - intros Hk. unfold galleryKeydown. apply String.eqb_neq in Hk. now rewrite Hk.
Qed.

Lemma openLightbox_shows_image_witness :
  galleryKeydown 6 (Some 7) (Some 8) 9 (mkEvent "Enter" false 9) Example.world
  = galleryClick 6 (Some 7) (Some 8) 9 Example.world.
Proof.
  exact (proj1 (proj2 (proj2 (proj2 (proj2 (proj2 (proj2
           (openLightbox_shows_image 6 7 8 9 (mkEvent "Enter" false 9) Example.world)))))))
           eq_refl).
Defined.

Lemma closeLightbox_effect lb w :
  thrown (closeLightbox lb w) = None
  ∧ hasActive lb (final (closeLightbox lb w)) = false
  ∧ bodyOverflow (final (closeLightbox lb w)) = ""
  ∧ activeElement (final (closeLightbox lb w)) = activeElement w.
Proof.
  unfold closeLightbox, hasActive. js_unfold. cbn [thrown final]. conjuncts; try reflexivity.
  unfold Dom.getElement at 1. unfold Dom.updElement at 1. simpl.
  rewrite lookup_insert_eq. apply ElFacts.contains_remove.
Qed.

(** Closing hides the overlay and restores page scrolling, without moving
    focus. A click closes only when it lands on the overlay itself (a click
    on the image inside it changes nothing), and Escape closes only while
    the overlay is visible. *)
Theorem lightbox_closes_on_backdrop_and_escape (lb : NodeId) (e : Event) (w : World) :
  (thrown (closeLightbox lb w) = None
   ∧ hasActive lb (final (closeLightbox lb w)) = false
   ∧ bodyOverflow (final (closeLightbox lb w)) = ""
   ∧ activeElement (final (closeLightbox lb w)) = activeElement w)
  ∧ (target e = lb → lightboxClick lb e w = closeLightbox lb w)
  ∧ (target e ≠ lb → lightboxClick lb e w = Normal () w)
  ∧ (key e = "Escape" → hasActive lb w = true →
     lightboxDocumentKeydown lb e w = closeLightbox lb w)
  ∧ (key e ≠ "Escape" ∨ hasActive lb w = false →
     lightboxDocumentKeydown lb e w = Normal () w).
Proof.
  split; [apply closeLightbox_effect|]. conjuncts.
  - intros Ht. unfold lightboxClick. now rewrite Ht, Nat.eqb_refl.
  - intros Ht. unfold lightboxClick. apply Nat.eqb_neq in Ht. now rewrite Ht.
  - intros Hk Ha. unfold lightboxDocumentKeydown. rewrite Hk.
    change (String.eqb "Escape" "Escape") with true. cbv iota.
    unfold bind, Dom.classList_contains, Dom.get. fold (hasActive lb w). now rewrite Ha.
  - intros H. unfold lightboxDocumentKeydown.
    destruct (String.eqb_spec (key e) "Escape") as [Hk|Hk]; [|reflexivity].
    destruct H as [H|H]; [contradiction|].
    unfold bind, Dom.classList_contains, Dom.get. fold (hasActive lb w). now rewrite H.
Qed.

Lemma lightbox_closes_on_backdrop_and_escape_witness :
  lightboxClick 6 (Example.click 7) (final (galleryClick 6 (Some 7) (Some 8) 9 Example.world))
  = Normal () (final (galleryClick 6 (Some 7) (Some 8) 9 Example.world)).
Proof.
  refine (proj1 (proj2 (proj2 (lightbox_closes_on_backdrop_and_escape 6 (Example.click 7)
                                 (final (galleryClick 6 (Some 7) (Some 8) 9 Example.world)))))
            _).
  discriminate.
Defined.

Lemma openLightbox_inSync lb im cl this w :
  scrollLockInSync lb w → scrollLockInSync lb (final (openLightbox lb im cl this w)).
Proof.
  intros Hw. unfold scrollLockInSync. destruct im as [i|]; [|exact Hw].
  destruct cl as [c|].
  - destruct (galleryClick_effect lb i c this w) as (_ & _ & _ & Ha & Ho & _).
    unfold galleryClick in Ha, Ho. now rewrite Ha, Ho.
  - destruct (openLightbox_no_close lb i this w) as (_ & Ha & Ho).
    unfold hasActive. now rewrite Ha, Ho.
Qed.

Lemma closeLightbox_inSync lb w : scrollLockInSync lb (final (closeLightbox lb w)).
Proof.
  destruct (closeLightbox_effect lb w) as (_ & Ha & Ho & _).
  unfold scrollLockInSync. now rewrite Ha, Ho.
Qed.

Lemma lightboxStep_inSync lb im cl op w :
  scrollLockInSync lb w → scrollLockInSync lb (final (lightboxStep lb im cl op w)).
Proof.
  intros Hw. destruct op as [this|this e| |e|e]; simpl.
  - now apply openLightbox_inSync.
  - unfold galleryKeydown. destruct (String.eqb (key e) "Enter");
      [now apply openLightbox_inSync | exact Hw].
  - apply closeLightbox_inSync.
  - unfold lightboxClick. destruct (Nat.eqb (target e) lb);
      [apply closeLightbox_inSync | exact Hw].
  - unfold lightboxDocumentKeydown. destruct (String.eqb (key e) "Escape"); [|exact Hw].
    unfold bind, Dom.classList_contains, Dom.get.
    destruct (El.contains "active" (Dom.getElement lb w));
      [apply closeLightbox_inSync | exact Hw].
Qed.

(** Along every sequence of lightbox listener runs, page scrolling is
    suppressed exactly when the overlay is visible, provided it was so at
    the start. This holds whether or not the inner image and the close
    button exist: a run that throws has either changed nothing or has both
    shown the overlay and locked scrolling. *)
Theorem lightbox_scroll_lock_in_sync (lb : NodeId) (im cl : option NodeId)
    (ops : list LightboxOp) (w0 : World) :
  scrollLockInSync lb w0 →
  Forall (λ c, scrollLockInSync lb (final c)) (lightboxTrace lb im cl ops w0).
Proof.
  revert w0. induction ops as [|op ops IH]; intros w0 H0; simpl; constructor.
  - now apply lightboxStep_inSync.
  - apply IH. now apply lightboxStep_inSync.
Qed.

Lemma lightbox_scroll_lock_in_sync_witness :
  Forall (λ c, scrollLockInSync 6 (final c))
         (lightboxTrace 6 (Some 7) None
            [GalleryClick 9; LightboxKeydown Example.escape; GalleryKeydown 9 Example.tab;
             OverlayClick (Example.click 7); OverlayClick (Example.click 6); CloseClick]
            Example.world).
Proof.
  refine (lightbox_scroll_lock_in_sync 6 (Some 7) None _ Example.world _).
  reflexivity.
Defined.

(** ** The whole script *)

Ltac keeps :=
  repeat first
    [ apply preserves_ret
    | apply preserves_get
    | apply preserves_throw
    | apply preserves_deref
    | apply preserves_forEach; intros ?
    | apply preserves_bind; [|intros ?]
    | apply preserves_modify; intros ? ?; assumption
    | progress cbv zeta
    | match goal with
      | |- preserves _ (match ?x with _ => _ end) => destruct x
      end ].

Lemma gallery_listeners_exact lb im cl imgs :
  ∀ w,
    Dom.forEach (λ img,
        Dom.addEventListener (TNode img) "click" (H_galleryClick lb im cl img);;
        Dom.addEventListener (TNode img) "keydown" (H_galleryKeydown lb im cl img))
      imgs w
    = Normal () (registered (galleryListeners lb im cl imgs) w).
Proof.
  induction imgs as [|x imgs IH]; intros w.
  - simpl. now rewrite registered_nil.
  - simpl. unfold bind at 1 2. rewrite !addEventListener_run, IH.
    now rewrite !registered_registered.
Qed.

Lemma initLightbox_run page w :
  initLightbox page w =
    if closeButtonMissing page
    then Throw TypeError (registered (lightboxListeners page) w)
    else Normal () (registered (lightboxListeners page) w).
Proof.
  unfold initLightbox, closeButtonMissing, lightboxListeners.
  destruct (lightbox page) as [lb|]; [|now rewrite registered_nil].
  destruct (galleryImages page) as [|x imgs]; [now rewrite registered_nil|].
  change (Nat.eqb (length (x :: imgs)) 0) with false. cbv iota.
  unfold bind at 1. rewrite gallery_listeners_exact.
  destruct (lightboxClose page) as [c|].
  - js_unfold. unfold registered, closingListeners; simpl. now rewrite <- !app_assoc.
  - simpl. now rewrite app_nil_r.
Qed.

Lemma initLightbox_exact page w :
  thrown (initLightbox page w) = (if closeButtonMissing page then Some TypeError else None)
  ∧ final (initLightbox page w) = registered (lightboxListeners page) w.
Proof. rewrite initLightbox_run. now destruct (closeButtonMissing page). Qed.

Lemma initDarkMode_summary page w :
  thrown (initDarkMode page w) = None
  ∧ localStorage (final (initDarkMode page w)) = localStorage w
  ∧ listeners (final (initDarkMode page w))
    = listeners w ++ match themeToggle page with
                     | Some toggle => themeListeners toggle
                     | None => []
                     end.
Proof.
  rewrite initDarkMode_cases. cbn [thrown final].
  destruct (themeToggle page) as [toggle|].
  - conjuncts; try reflexivity; now destruct (resolvesDark page w).
  - conjuncts; try reflexivity. now rewrite app_nil_r.
Qed.

Lemma init_summary page w :
  thrown (init page w) = (if closeButtonMissing page then Some TypeError else None)
  ∧ listeners (final (init page w)) = listeners w ++ initListeners page
  ∧ localStorage (final (init page w)) = localStorage w.
Proof.
  unfold init, initListeners.
  assert (Hrun : ∃ w4,
             bind (initNavigation page)
               (λ _, bind (initSmoothScroll page)
                       (λ _, bind (updateActiveNav page)
                               (λ _, bind (initDarkMode page)
                                       (λ _, initLightbox page)))) w
             = initLightbox page w4
             ∧ listeners w4
               = listeners w
                 ++ match navToggle page, navMenu page with
                    | Some t, Some m => navListeners t m
                    | _, _ => []
                    end
                 ++ anchorListeners (anchorLinks page)
                 ++ match themeToggle page with
                    | Some toggle => themeListeners toggle
                    | None => []
                    end
             ∧ localStorage w4 = localStorage w).
  { unfold bind at 1. rewrite initNavigation_exact.
    unfold bind at 1. rewrite initSmoothScroll_run.
    unfold bind at 1. rewrite updateActiveNav_run.
    match goal with |- context [markAll ?p ?l ?w1] => set (w3 := markAll p l w1) end.
    destruct (initDarkMode_summary page w3) as (Hthrow & Hst & Hls).
    unfold bind. destruct (initDarkMode page w3) as [[] w4|err w4]; [|discriminate Hthrow].
    cbn [final] in Hst, Hls. exists w4. split; [reflexivity|].
    destruct (markAll_frame (pathname page) (navLinks page)
                (registered (anchorListeners (anchorLinks page))
                   (registered match navToggle page, navMenu page with
                                | Some t, Some m => navListeners t m
                                | _, _ => []
                                end w)))
      as (_ & _ & _ & Hs3 & Hl3 & _).
    fold w3 in Hs3, Hl3. rewrite Hls, Hst, Hl3, Hs3. simpl.
    split; [now rewrite <- !app_assoc | reflexivity]. }
  destruct Hrun as (w4 & -> & Hl4 & Hs4).
  destruct (initLightbox_exact page w4) as [-> ->]. simpl.
  rewrite Hl4, Hs4. split; [reflexivity|]. split; [|reflexivity].
  now rewrite <- !app_assoc.
Qed.

(** [init] completes abruptly in exactly one situation: the overlay and a
    gallery image exist but the close button does not. Whether it throws or
    not, it has registered exactly the listeners of [initListeners], in that
    order, and has written nothing to [localStorage]. *)
Theorem init_completion (page : Page) (w : World) :
  thrown (init page w) = (if closeButtonMissing page then Some TypeError else None)
  ∧ listeners (final (init page w)) = listeners w ++ initListeners page
  ∧ localStorage (final (init page w)) = localStorage w.
Proof.
  destruct (init_summary page w) as (Hthrow & Hlisteners & Hstorage).
  conjuncts; assumption.
Qed.

Lemma handle_keeps_listeners page ls h e :
  preserves (λ w, listeners w = ls) (handle page h e).
Proof.
  destruct h; simpl.
  - unfold toggleMenu. keeps.
  - unfold navDocumentClick. keeps.
  - unfold navDocumentKeydown. keeps.
  - unfold handleMenuKeydown. keeps.
  - unfold anchorClick. keeps.
  - unfold themeToggleClick. keeps.
  - unfold galleryClick, openLightbox. keeps.
  - unfold galleryKeydown, openLightbox. keeps.
  - unfold closeLightbox. keeps.
  - unfold lightboxClick, closeLightbox. keeps.
  - unfold lightboxDocumentKeydown, closeLightbox. keeps.
Qed.

(** No listener registers a listener: in every state a page load reaches,
    the registered listeners are those present before [init] followed by
    exactly the ones [init] adds, in order. *)
Theorem listeners_fixed_after_init (page : Page) (w0 w : World) :
  reachable page w0 w → listeners w = listeners w0 ++ initListeners page.
Proof.
  intros Hr. induction Hr as [|w l e _ IH _].
  - apply init_summary.
  - now apply (handle_keeps_listeners page _ (l_handler l) e (fresh w)).
Qed.

Lemma listeners_fixed_after_init_witness :
  listeners (final (handle Example.page (H_themeToggleClick 5) (Example.click 5)
                      (fresh (final (init Example.page Example.world)))))
  = listeners Example.world ++ initListeners Example.page.
Proof.
  refine (listeners_fixed_after_init Example.page Example.world _ _).
  apply (reach_event Example.page Example.world _
           (mkListener (TNode 5) "click" (H_themeToggleClick 5)));
    [apply reach_init|].
  vm_compute. do 6 apply list_elem_of_further. apply list_elem_of_here.
Defined.

Lemma handle_keeps_storage page s h e :
  (∀ toggle, h ≠ H_themeToggleClick toggle) →
  preserves (λ w, localStorage w = s) (handle page h e).
Proof.
  intros Hh. destruct h; simpl; try (exfalso; eapply Hh; reflexivity).
  - unfold toggleMenu. keeps.
  - unfold navDocumentClick. keeps.
  - unfold navDocumentKeydown. keeps.
  - unfold handleMenuKeydown. keeps.
  - unfold anchorClick. keeps.
  - unfold galleryClick, openLightbox. keeps.
  - unfold galleryKeydown, openLightbox. keeps.
  - unfold closeLightbox. keeps.
  - unfold lightboxClick, closeLightbox. keeps.
  - unfold lightboxDocumentKeydown, closeLightbox. keeps.
Qed.

Lemma storageOk_same s0 w w' :
  localStorage w' = localStorage w → storageOk s0 w → storageOk s0 w'.
Proof. unfold storageOk, savedTheme. now intros ->. Qed.

Lemma toggle_storageOk s0 toggle w : storageOk s0 w → storageOk s0 (toggled toggle w).
Proof.
  intros [Hother _]. split.
  - intros k Hk. rewrite toggled_applied. unfold applied; simpl.
    rewrite lookup_insert_ne by congruence. now apply Hother.
  - rewrite toggled_savedTheme.
    destruct (opposite_cases (dataTheme w)) as [[_ ->]|[_ ->]]; auto.
Qed.

Lemma handle_storageOk page s0 h e : preserves (storageOk s0) (handle page h e).
Proof.
  intros w Hw.
  destruct h; try (apply (storageOk_same s0 w); [|exact Hw];
                   apply (handle_keeps_storage page (localStorage w)); [|reflexivity];
                   intros toggle; discriminate).
  now apply toggle_storageOk.
Qed.

(** The script writes [localStorage] only from the theme toggle and only
    under the ['theme'] key: in every state a page load reaches, every other
    key holds what it held at load, and ['theme'] holds its value at load,
    ['dark'] or ['light']. *)
Theorem storage_only_theme_key (page : Page) (w0 w : World) :
  reachable page w0 w → storageOk (localStorage w0) w.
Proof.
  intros Hr. induction Hr as [|w l e _ IH _].
  - destruct (init_summary page w0) as (_ & _ & Hs). unfold storageOk, savedTheme.
    rewrite Hs. auto.
  - apply handle_storageOk. exact IH.
Qed.

Lemma storage_only_theme_key_witness :
  storageOk (localStorage Example.world)
    (final (handle Example.page (H_themeToggleClick 5) (Example.click 5)
              (fresh (final (init Example.page Example.world))))).
Proof.
  refine (storage_only_theme_key Example.page Example.world _ _).
  apply (reach_event Example.page Example.world _
           (mkListener (TNode 5) "click" (H_themeToggleClick 5)));
    [apply reach_init|].
  vm_compute. do 6 apply list_elem_of_further. apply list_elem_of_here.
Defined.

(** On a page whose lightbox is absent, has no gallery image, or has both
    its image and its close button, no listener that [init] registers ever
    throws a [TypeError], on any event and in any state: the guards of the
    [init*] functions cover every dereference of the listeners. *)
Theorem registered_listeners_never_TypeError (page : Page) (l : Listener) (e : Event)
    (w : World) :
  lightboxComplete page → l ∈ initListeners page →
  thrown (handle page (l_handler l) e w) ≠ Some TypeError.
Proof.
  intros Hc Hl. unfold initListeners in Hl.
  apply elem_of_app in Hl as [Hl|Hl]; [|apply elem_of_app in Hl as [Hl|Hl];
                                         [|apply elem_of_app in Hl as [Hl|Hl]]].
  - destruct (navToggle page) as [t|] eqn:Ht; [|inversion Hl].
    destruct (navMenu page) as [m|] eqn:Hm; [|inversion Hl].
    unfold navListeners in Hl.
    repeat (apply elem_of_cons in Hl as [->|Hl]); [| | | |inversion Hl]; simpl.
    + now rewrite (proj1 (toggleMenu_inSync page t m Ht Hm w)).
    + rewrite (navDocumentClick_run page t m Ht Hm).
      destruct (outside page t m e); [|discriminate].
      now rewrite (closeMenu_run page t m Ht Hm).
    + rewrite (navDocumentKeydown_run page t m Ht Hm).
      destruct (String.eqb (key e) "Escape" && menuOpen m w); [|discriminate].
      unfold bind. now rewrite (closeMenu_run page t m Ht Hm).
    + now rewrite (handleMenuKeydown_no_throw page m Hm).
  - unfold anchorListeners in Hl. apply list_elem_of_fmap in Hl as (link & -> & _). simpl.
    rewrite anchorClick_run. destruct (JsString.strictEq _ _); [discriminate|].
    destruct (querySelector page w _) as [|[tgt|]]; discriminate.
  - destruct (themeToggle page) as [toggle|]; [|inversion Hl].
    apply list_elem_of_singleton in Hl as ->. discriminate.
  - unfold lightboxListeners in Hl.
    destruct (lightbox page) as [lb|] eqn:Hlb; [|inversion Hl].
    destruct (galleryImages page) as [|x imgs] eqn:Hg; [inversion Hl|].
    unfold lightboxComplete in Hc. rewrite Hlb, Hg in Hc.
    destruct Hc as [Hc|[Hc|[[im Him] [cl Hcl]]]]; [discriminate Hc | discriminate Hc|].
    rewrite Him, Hcl in Hl. apply elem_of_app in Hl as [Hl|Hl].
    + unfold galleryListeners in Hl.
      apply list_elem_of_In, in_flat_map in Hl as (img & _ & Hl).
      apply list_elem_of_In in Hl.
      repeat (apply elem_of_cons in Hl as [->|Hl]); [| |inversion Hl]; simpl.
      * discriminate.
      * unfold galleryKeydown. destruct (String.eqb (key e) "Enter"); discriminate.
    + unfold closingListeners in Hl.
      repeat (apply elem_of_cons in Hl as [->|Hl]); [| | |inversion Hl]; simpl.
      * discriminate.
      * unfold lightboxClick. destruct (Nat.eqb (target e) lb); discriminate.
      * unfold lightboxDocumentKeydown. destruct (String.eqb (key e) "Escape");
          [|discriminate].
        unfold bind, Dom.classList_contains, Dom.get.
        destruct (El.contains "active" (Dom.getElement lb w)); discriminate.
Qed.

Lemma registered_listeners_never_TypeError_witness :
  thrown (handle Example.page (H_galleryClick 6 (Some 7) (Some 8) 9) (Example.click 9)
            Example.world) ≠ Some TypeError.
Proof.
  refine (registered_listeners_never_TypeError Example.page
            (mkListener (TNode 9) "click" (H_galleryClick 6 (Some 7) (Some 8) 9))
            (Example.click 9) Example.world _ _).
  - right. right. split; eexists; reflexivity.
  - vm_compute. do 7 apply list_elem_of_further. apply list_elem_of_here.
Defined.

(** On a page that has none of the elements the script looks for, [init]
    does nothing: it completes normally and returns the state it was given. *)
Theorem init_inert_on_bare_page (page : Page) (w : World) :
  navToggle page = None ∨ navMenu page = None →
  anchorLinks page = [] → navLinks page = [] → themeToggle page = None →
  lightbox page = None ∨ galleryImages page = [] →
  init page w = Normal () w.
Proof.
  intros Hnav Ha Hn Ht Hlb. unfold init, bind.
  assert (Hnone : match navToggle page, navMenu page with
                  | Some t, Some m => navListeners t m
                  | _, _ => []
                  end = []).
  { destruct Hnav as [H|H]; rewrite H; [|destruct (navToggle page)]; reflexivity. }
  rewrite initNavigation_exact, Hnone, registered_nil.
  rewrite initSmoothScroll_run, Ha. cbn [anchorListeners map]. rewrite registered_nil.
  rewrite updateActiveNav_run, Hn. cbn [markAll].
  rewrite initDarkMode_cases, Ht.
  now apply initLightbox_inert.
Qed.

Lemma init_inert_on_bare_page_witness :
  init (mkPage None None [] [] [] None None None None [] (λ _ _, false)
               (λ _ _, Matched None) "/" true)
       Example.world
  = Normal () Example.world.
Proof.
  refine (init_inert_on_bare_page
            (mkPage None None [] [] [] None None None None [] (λ _ _, false)
                    (λ _ _, Matched None) "/" true)
            Example.world _ eq_refl eq_refl eq_refl _); left; reflexivity.
Defined.

(** ** Menu and lightbox side by side *)

Lemma preserves_bind_deref_Some {A B} P (a : A) (f : A → JS B) :
  preserves P (f a) → preserves P (bind (Dom.deref (Some a)) f).
Proof. intros H w Hw. now apply H. Qed.

Ltac keeps_class :=
  repeat first
    [ match goal with
      | |- preserves _ (bind (Dom.deref (Some _)) _) => apply preserves_bind_deref_Some
      end
    | apply preserves_ret
    | apply preserves_get
    | apply preserves_throw
    | apply preserves_deref
    | apply preserves_bind; [|intros ?]
    | progress cbv zeta
    | match goal with
      | |- preserves _ (match ?x with _ => _ end) => destruct x
      end
    | apply preserves_modify; intros ? ?; cbv beta in *;
      first [ assumption
            | rewrite DomFacts.getElement_updElement;
              match goal with
              | |- context [decide (?a = ?b)] =>
                  destruct (decide (a = b)); [first [assumption | congruence] | assumption]
              end ] ].

Lemma lightboxStep_keeps_menu lb im cl m op b :
  m ≠ lb →
  preserves (λ w, El.contains "active" (Dom.getElement m w) = b) (lightboxStep lb im cl op).
Proof.
  intros Hne. destruct op; simpl.
  - unfold galleryClick, openLightbox, Dom.get_src, Dom.get_alt, Dom.set_src, Dom.set_alt,
      Dom.classList_add, Dom.set_bodyOverflow, Dom.focus.
    keeps_class.
  - unfold galleryKeydown, openLightbox, Dom.get_src, Dom.get_alt, Dom.set_src, Dom.set_alt,
      Dom.classList_add, Dom.set_bodyOverflow, Dom.focus.
    keeps_class.
  - unfold closeLightbox, Dom.classList_remove, Dom.set_bodyOverflow. keeps_class.
  - unfold lightboxClick, closeLightbox, Dom.classList_remove, Dom.set_bodyOverflow.
    keeps_class.
  - unfold lightboxDocumentKeydown, closeLightbox, Dom.classList_contains,
      Dom.classList_remove, Dom.set_bodyOverflow.
    keeps_class.
Qed.

Lemma navStep_keeps_overlay page lb t m op b :
  navToggle page = Some t → navMenu page = Some m → lb ≠ m → lb ≠ t →
  preserves (λ w, El.contains "active" (Dom.getElement lb w) = b) (navStep page op).
Proof.
  intros Ht Hm Hne Hnt.
  assert (Hclose : preserves (λ w, El.contains "active" (Dom.getElement lb w) = b)
                     (closeMenu page)).
  { unfold closeMenu, Dom.classList_remove, Dom.setAttribute. rewrite Ht, Hm.
    keeps_class. }
  assert (Hopen : preserves (λ w, El.contains "active" (Dom.getElement lb w) = b)
                    (openMenu page)).
  { unfold openMenu, Dom.classList_add, Dom.setAttribute, Dom.focus. rewrite Ht, Hm.
    keeps_class. }
  destruct op; simpl; try assumption.
  - unfold toggleMenu. rewrite Hm. apply preserves_bind_deref_Some.
    apply preserves_bind; [apply preserves_get | intros isOpen].
    now destruct isOpen.
  - unfold navDocumentClick. rewrite Ht, Hm. apply preserves_bind_deref_Some.
    destruct (negb (contains page t (target e))); [|apply preserves_ret].
    apply preserves_bind_deref_Some.
    destruct (negb (contains page m (target e))); [exact Hclose | apply preserves_ret].
  - unfold navDocumentKeydown. rewrite Ht, Hm.
    destruct (String.eqb (key e) "Escape"); [|apply preserves_ret].
    apply preserves_bind_deref_Some.
    apply preserves_bind; [apply preserves_get | intros isOpen].
    destruct isOpen; [|apply preserves_ret].
    apply preserves_bind; [exact Hclose | intros _].
    apply preserves_bind_deref_Some. apply preserves_modify. intros w Hw. exact Hw.
Qed.

(** Menu and lightbox do not exclude each other. When the overlay is a
    different element from the menu and its trigger, no lightbox listener
    changes whether the menu is open, and no menu operation changes whether
    the overlay is visible or whether page scrolling is suppressed: both can
    be open at once. *)
Theorem menu_and_lightbox_independent (page : Page) (t m lb : NodeId)
    (im cl : option NodeId) (w : World) :
  navToggle page = Some t → navMenu page = Some m → lb ≠ m → lb ≠ t →
  (∀ op, menuOpen m (final (lightboxStep lb im cl op w)) = menuOpen m w)
  ∧ (∀ op, hasActive lb (final (navStep page op w)) = hasActive lb w
           ∧ bodyOverflow (final (navStep page op w)) = bodyOverflow w).
Proof.
  intros Ht Hm Hne Hnt. split.
  - intros op. apply (lightboxStep_keeps_menu lb im cl m op (menuOpen m w)); [congruence|].
    reflexivity.
  - intros op. split.
    + now apply (navStep_keeps_overlay page lb t m op (hasActive lb w) Ht Hm Hne Hnt).
    + assert (Hk : preserves (λ w', bodyOverflow w' = bodyOverflow w) (navStep page op)).
      { destruct op; simpl.
        - unfold openMenu. keeps.
        - unfold closeMenu. keeps.
        - unfold toggleMenu, closeMenu, openMenu. keeps.
        - unfold navDocumentClick, closeMenu. keeps.
        - unfold navDocumentKeydown, closeMenu. keeps. }
      now apply Hk.
Qed.

Lemma menu_and_lightbox_independent_witness :
  menuOpen 1 (final (lightboxStep 6 (Some 7) (Some 8) (GalleryClick 9)
                       (final (openMenu Example.page Example.world)))) = true
  ∧ hasActive 6 (final (lightboxStep 6 (Some 7) (Some 8) (GalleryClick 9)
                          (final (openMenu Example.page Example.world)))) = true.
Proof.
  split; [|reflexivity].
  rewrite (proj1 (menu_and_lightbox_independent Example.page 0 1 6 (Some 7) (Some 8)
                    (final (openMenu Example.page Example.world))
                    eq_refl eq_refl ltac:(discriminate) ltac:(discriminate))
             (GalleryClick 9)).
  reflexivity.
Defined.
